(** * dropbot_dx_plugin: the step execution coordinator of [DropbotDxPlugin]

    A shallow embedding of [src/__init__.py].  The plugin object ([self]),
    the GLib main loop's table of timeout sources and the log of every call
    the plugin makes to the outside are threaded through a state and
    exception monad; the answers of the outside (the board proxy, the D-Stat
    remote, the dialogs, the firmware tools) are read from an environment
    indexed by a logical clock, so that the same call can answer differently
    each time it is made.  Calls into the board proxy, the D-Stat remote
    and the firmware tools may raise; [emit_signal], the logger, [print],
    the GTK widgets and the GLib timer functions are taken to return. *)

From Stdlib Require Import List Bool Arith Lia String.
Import ListNotations.
Open Scope string_scope.
Open Scope list_scope.

(** ** Exceptions and results *)

(** The Python exception classes that the code distinguishes or raises
    itself.  [except IOError:] catches [IOError] only, a bare [except:]
    catches all of them. *)
Inductive exn : Type :=
| IOError
| AttributeError
| IndexError
| KeyError
| RuntimeError
| OtherError.

Definition is_IOError (e : exn) : bool :=
  match e with IOError => true | _ => false end.

Inductive result (A : Type) : Type :=
| Ret (a : A)
| Raise (e : exn).
Arguments Ret {A} a.
Arguments Raise {A} e.

Definition raises {A} (r : result A) : bool :=
  match r with Ret _ => false | Raise _ => true end.

(** ** Data *)

(** The [return_value] of [on_step_complete]: [None], ['Repeat'], ['Fail']. *)
Inductive outcome : Type :=
| OutNone
| Repeat
| Fail.

(** [StepFields]: the per-step options of the plugin. *)
Record StepOptions : Type := mkStepOptions {
  magnet_engaged : bool;
  dstat_enabled : bool }.

(** What [on_step_run] reads from its surroundings: [get_app()],
    [self.get_step_options()] and [self.get_app_values()] (a dict). *)
Record Context : Type := mkContext {
  current_step_number : nat;
  step_options : StepOptions;
  app_values : list (string * string) }.

(** The instance attributes set by [__init__].  Handles of remote objects
    are the clock value at which they were created. *)
Record Plugin : Type := mkPlugin {
  timeout_id : option nat;
  dstat_remote : option nat;
  dropbot_dx_remote : option nat;
  initialized : bool }.

(** Every call that leaves the plugin, in the order it is made. *)
Inductive event : Type :=
| EmitStepComplete (o : outcome)
| UpdateState (board : nat) (light_enabled : option bool)
              (magnet : option bool)
| Terminate (board : nat)
| NewSerialProxy
| HostSoftwareVersion (board : nat)
| RemoteSoftwareVersion (board : nat)
| SerialPort (board : nat)
| YesNo
| GetFirmwares
| UploadFirmware (firmware_path board_name port : string)
| NewDstatRemote (uri : string)
| StartAcquisition (session : nat)
| AcquisitionComplete (session : nat)
| Reset (session : nat)
| SourceRemove (id : nat)
| TimeoutAdd (interval : nat) (id : nat)
| LoggerInfo (msg : string)
| LoggerWarning (msg : string)
| LoggerError (msg : string)
| Print (msg : string)
| PrintExc
| Gtk (call : string).

(** The plugin, the main loop and the log.  [sources] is the main loop's
    table of registered timeouts, [next_source] the id the next
    [timeout_add] returns, and [peak] a ghost counter: the largest number of
    timeouts that were ever registered at the same time. *)
Record World : Type := mkWorld {
  self : Plugin;
  clock : nat;
  sources : list nat;
  next_source : nat;
  peak : nat;
  log : list event }.

(** The answers of the outside, by the clock value of the call. *)
Record Env : Type := mkEnv {
  env_SerialProxy : nat -> result unit;
  env_host_software_version : nat -> result string;
  env_remote_software_version : nat -> result string;
  env_port : nat -> result string;
  env_yesno : nat -> bool;
  env_get_firmwares : nat -> result (list (string * list string));
  env_upload_firmware : nat -> result string;
  env_update_state : nat -> result bool;
  env_terminate : nat -> result unit;
  env_DstatRemote : nat -> result unit;
  env_start_acquisition : nat -> result unit;
  env_acquisition_complete : nat -> result bool;
  env_reset : nat -> result unit }.

(** ** The monad *)

Definition M (A : Type) : Type := World -> result A * World.

Definition ret {A} (a : A) : M A := fun w => (Ret a, w).

Definition raise {A} (e : exn) : M A := fun w => (Raise e, w).

Definition bind {A B} (m : M A) (k : A -> M B) : M B :=
  fun w =>
    match m w with
    | (Ret a, w') => k a w'
    | (Raise e, w') => (Raise e, w')
    end.

Notation "x <- m ;; k" := (bind m (fun x => k))
  (at level 61, m at next level, right associativity).
Notation "m ;;; k" := (bind m (fun _ => k))
  (at level 61, right associativity).

(** [try: body  except: handler] *)
Definition try_except {A} (body handler : M A) : M A :=
  fun w =>
    match body w with
    | (Ret a, w') => (Ret a, w')
    | (Raise _, w') => handler w'
    end.

(** [try: body  except IOError: handler] *)
Definition try_except_IOError {A} (body handler : M A) : M A :=
  fun w =>
    match body w with
    | (Ret a, w') => (Ret a, w')
    | (Raise e, w') => if is_IOError e then handler w' else (Raise e, w')
    end.

Definition when (b : bool) (m : M unit) : M unit :=
  if b then m else ret tt.

(** ** Primitive operations *)

Definition get_self : M Plugin := fun w => (Ret (self w), w).

Definition set_self (p : Plugin) : M unit :=
  fun w => (Ret tt, mkWorld p (clock w) (sources w) (next_source w)
                            (peak w) (log w)).

Definition set_timeout_id (v : option nat) : M unit :=
  p <- get_self ;;
  set_self (mkPlugin v (dstat_remote p) (dropbot_dx_remote p) (initialized p)).

Definition set_dstat_remote (v : option nat) : M unit :=
  p <- get_self ;;
  set_self (mkPlugin (timeout_id p) v (dropbot_dx_remote p) (initialized p)).

Definition set_dropbot_dx_remote (v : option nat) : M unit :=
  p <- get_self ;;
  set_self (mkPlugin (timeout_id p) (dstat_remote p) v (initialized p)).

Definition set_initialized (v : bool) : M unit :=
  p <- get_self ;;
  set_self (mkPlugin (timeout_id p) (dstat_remote p) (dropbot_dx_remote p) v).

(** A call that cannot fail: it is logged and the clock advances. *)
Definition emit (ev : event) : M unit :=
  fun w => (Ret tt, mkWorld (self w) (S (clock w)) (sources w)
                            (next_source w) (peak w) (log w ++ [ev])).

(** A call answered by the outside. *)
Definition call {A} (ev : event) (answer : nat -> result A) : M A :=
  fun w => (answer (clock w),
            mkWorld (self w) (S (clock w)) (sources w) (next_source w)
                    (peak w) (log w ++ [ev])).

(** The clock value now: the handle of an object created by the next call. *)
Definition fresh_handle : M nat := fun w => (Ret (clock w), w).

Definition emit_signal_on_step_complete (o : outcome) : M unit :=
  emit (EmitStepComplete o).

(** [traceback.print_exc] between two rulers, as both handlers print it. *)
Definition print_exception : M unit :=
  emit (Print "Exception in user code:") ;;;
  emit (Print "------------------------------------------------------------") ;;;
  emit PrintExc ;;;
  emit (Print "------------------------------------------------------------").

(** *** The GLib main loop *)

Definition remove_source (id : nat) (l : list nat) : list nat :=
  filter (fun x => negb (Nat.eqb x id)) l.

(** [gobject.source_remove(id)]: the source leaves the table (an unknown
    id is reported by GLib and nothing is removed). *)
Definition gobject_source_remove (id : nat) : M unit :=
  fun w => (Ret tt,
            mkWorld (self w) (S (clock w)) (remove_source id (sources w))
                    (next_source w) (peak w) (log w ++ [SourceRemove id])).

(** [gobject.timeout_add(interval, self.remote_check_tick)]: a fresh id. *)
Definition gobject_timeout_add (interval : nat) : M nat :=
  fun w =>
    let id := next_source w in
    let srcs := sources w ++ [id] in
    (Ret id,
     mkWorld (self w) (S (clock w)) srcs (S id)
             (Nat.max (peak w) (List.length srcs))
             (log w ++ [TimeoutAdd interval id])).

(** A dict lookup [d[key]] and a list lookup [l[0]]. *)
Fixpoint dict_get {V} (key : string) (d : list (string * V)) : result V :=
  match d with
  | [] => Raise KeyError
  | (k, v) :: d' => if String.eqb k key then Ret v else dict_get key d'
  end.

Definition first_item {V} (l : list V) : result V :=
  match l with
  | [] => Raise IndexError
  | x :: _ => Ret x
  end.

Definition lift {A} (r : result A) : M A := fun w => (r, w).

(** ** The plugin *)

Section DropbotDxPlugin.

Variable env : Env.

(** [__init__] *)
Definition init_plugin : Plugin := mkPlugin None None None false.

Definition init_world : World := mkWorld init_plugin 0 [] 1 0 [].

Definition connected : M bool :=
  p <- get_self ;;
  ret (match dropbot_dx_remote p with Some _ => true | None => false end).

(** [self.dropbot_dx_remote.<attribute>]: [None] has no attributes. *)
Definition the_board : M nat :=
  p <- get_self ;;
  match dropbot_dx_remote p with
  | Some b => ret b
  | None => raise AttributeError
  end.

(** [self.dropbot_dx_remote.update_state(light_enabled=..., magnet_engaged=...)];
    a keyword that is not passed is [None]. *)
Definition update_state (light magnet : option bool) : M bool :=
  b <- the_board ;;
  call (UpdateState b light magnet) (env_update_state env).

(** [on_flash_firmware], with the call [self.connect()] that ends it as a
    parameter. *)
Definition on_flash_firmware_with (reconnect : M unit) : M unit :=
  firmwares <- call GetFirmwares (env_get_firmwares env) ;;
  board <- lift (first_item (map fst firmwares)) ;;
  firmwares' <- call GetFirmwares (env_get_firmwares env) ;;
  paths <- lift (dict_get board firmwares') ;;
  firmware_path <- lift (first_item paths) ;;
  b <- the_board ;;
  port <- call (SerialPort b) (env_port env) ;;
  set_dropbot_dx_remote None ;;;
  out <- call (UploadFirmware firmware_path board port)
              (env_upload_firmware env) ;;
  emit (LoggerInfo out) ;;;
  reconnect.

(** [connect].  [connect] and [on_flash_firmware] call each other; CPython
    bounds the depth of the call stack and raises [RuntimeError] when a call
    would exceed it, [depth] is the number of nested [connect] calls still
    allowed. *)
Fixpoint connect (depth : nat) : M unit :=
  match depth with
  | 0 => raise RuntimeError
  | S d =>
      try_except_IOError
        (h <- fresh_handle ;;
         call NewSerialProxy (env_SerialProxy env) ;;;
         set_dropbot_dx_remote (Some h) ;;;
         b <- the_board ;;
         host_version <- call (HostSoftwareVersion b)
                              (env_host_software_version env) ;;
         b' <- the_board ;;
         remote_version <- call (RemoteSoftwareVersion b')
                                (env_remote_software_version env) ;;
         when (negb (String.eqb remote_version host_version))
              (response <- call YesNo (fun t => Ret (env_yesno env t)) ;;
               when response (on_flash_firmware_with (connect d))) ;;;
         update_state (Some true) None ;;;
         ret tt)
        (emit (LoggerWarning "Could not connect to DropBot DX."))
  end.

Definition on_flash_firmware (depth : nat) : M unit :=
  on_flash_firmware_with (connect depth).

(** [on_plugin_enable]; the menu items exist once [initialized] is set. *)
Definition on_plugin_enable (depth : nat) : M unit :=
  connect depth ;;;
  p <- get_self ;;
  when (negb (initialized p))
       (emit (Gtk "menu_tools.append(tools_menu_item)") ;;;
        emit (Gtk "tools_menu.show()") ;;;
        emit (Gtk "tools_menu_item.set_submenu(tools_menu)") ;;;
        emit (Gtk "tools_menu.append(menu_item)") ;;;
        emit (Gtk "menu_item.connect(activate, on_launch_dstat_inteface)") ;;;
        emit (Gtk "menu_item.show()") ;;;
        emit (Gtk "tools_menu.append(edit_config_menu_item)") ;;;
        emit (Gtk "edit_config_menu_item.connect(activate, on_edit_configuration)") ;;;
        set_initialized true) ;;;
  emit (Gtk "tools_menu_item.show()") ;;;
  c <- connected ;;
  when c (emit (Gtk "edit_config_menu_item.show()")) ;;;
  emit (Gtk "super.on_plugin_enable()").

(** [on_plugin_disable] *)
Definition on_plugin_disable : M unit :=
  c <- connected ;;
  when c (b <- the_board ;; call (Terminate b) (env_terminate env)) ;;;
  p <- get_self ;;
  if initialized p
  then emit (Gtk "tools_menu_item.hide()")
  else raise AttributeError.

(** The decorator [is_connected]: the wrapped method runs only with a
    board attached, and its value is dropped. *)
Definition is_connected {A} (f : M A) : M unit :=
  c <- connected ;;
  if negb c
  then emit (LoggerWarning "DropBot DX not connected.")
  else f ;;; ret tt.

(** [on_protocol_run], whose body is [pass]. *)
Definition on_protocol_run : M unit := is_connected (ret tt).

(** [on_step_run] *)
Definition on_step_run (ctx : Context) : M unit :=
  emit (LoggerInfo "[DropbotDxPlugin] on_step_run(): step #%d") ;;;
  let options := step_options ctx in
  c <- connected ;;
  if c then
    ok <- update_state (Some (negb (dstat_enabled options)))
                       (Some (magnet_engaged options)) ;;
    when (negb ok)
         (emit (LoggerError "Could not set state of DropBot DX board.") ;;;
          emit_signal_on_step_complete Fail) ;;;
    if dstat_enabled options then
      try_except
        (p <- get_self ;;
         match timeout_id p with
         | Some t => gobject_source_remove t
         | None => ret tt
         end ;;;
         uri <- lift (dict_get "dstat_uri" (app_values ctx)) ;;
         h <- fresh_handle ;;
         call (NewDstatRemote uri) (env_DstatRemote env) ;;;
         set_dstat_remote (Some h) ;;;
         call (StartAcquisition h) (env_start_acquisition env) ;;;
         id <- gobject_timeout_add 100 ;;
         set_timeout_id (Some id))
        (print_exception ;;;
         emit_signal_on_step_complete Fail)
    else
      emit_signal_on_step_complete OutNone
  else
    emit_signal_on_step_complete OutNone.

(** [remote_check_tick]; [true] asks the main loop to call again, [false]
    to drop the timeout. *)
Definition remote_check_tick : M bool :=
  p <- get_self ;;
  match dstat_remote p with
  | Some s =>
      try_except
        (done <- call (AcquisitionComplete s) (env_acquisition_complete env) ;;
         if done then
           call (Reset s) (env_reset env) ;;;
           ok <- update_state (Some true) None ;;
           when (negb ok) (raise IOError) ;;;
           emit_signal_on_step_complete OutNone ;;;
           set_timeout_id None ;;;
           set_dstat_remote None ;;;
           ret false
         else
           emit (Print "Waiting for acquisition to complete...") ;;;
           ret true)
        (print_exception ;;;
         emit_signal_on_step_complete Fail ;;;
         set_timeout_id None ;;;
         set_dstat_remote None ;;;
         ret false)
  | None => ret true
  end.

(** ** The host: the main loop and the protocol controller *)

Definition drop_source (id : nat) (w : World) : World :=
  mkWorld (self w) (clock w) (remove_source id (sources w)) (next_source w)
          (peak w) (log w).

(** The main loop fires timeout [id]: a registered timeout calls
    [remote_check_tick] and stays registered only if that returns [True]. *)
Definition dispatch_timeout (id : nat) (w : World) : World :=
  if existsb (Nat.eqb id) (sources w) then
    match remote_check_tick w with
    | (Ret true, w') => w'
    | (_, w') => drop_source id w'
    end
  else w.

(** What the host can do to the plugin. *)
Inductive op : Type :=
| OpEnable (depth : nat)
| OpDisable
| OpProtocolRun
| OpStepRun (ctx : Context)
| OpTimeout (id : nat).

Definition step (w : World) (o : op) : World :=
  match o with
  | OpEnable depth => snd (on_plugin_enable depth w)
  | OpDisable => snd (on_plugin_disable w)
  | OpProtocolRun => snd (on_protocol_run w)
  | OpStepRun ctx => snd (on_step_run ctx w)
  | OpTimeout id => dispatch_timeout id w
  end.

Definition run (ops : list op) (w : World) : World := fold_left step ops w.

End DropbotDxPlugin.

(** ** Reading the log *)

(** The events logged between [w] and a later [w']. *)
Definition since (w w' : World) : list event :=
  skipn (List.length (log w)) (log w').

Definition completion (e : event) : list outcome :=
  match e with EmitStepComplete o => [o] | _ => [] end.

(** The outcomes emitted through [on_step_complete], in order. *)
Definition completions (l : list event) : list outcome :=
  flat_map completion l.

Definition is_board_call (e : event) : bool :=
  match e with
  | UpdateState _ _ _ | Terminate _ | HostSoftwareVersion _
  | RemoteSoftwareVersion _ | SerialPort _ => true
  | _ => false
  end.

Definition is_session_call (e : event) : bool :=
  match e with
  | NewDstatRemote _ | StartAcquisition _ | AcquisitionComplete _
  | Reset _ => true
  | _ => false
  end.

Definition is_reset (e : event) : bool :=
  match e with Reset _ => true | _ => false end.

Definition is_timeout_add (e : event) : bool :=
  match e with TimeoutAdd _ _ => true | _ => false end.

Definition is_source_remove (e : event) : bool :=
  match e with SourceRemove _ => true | _ => false end.

Definition is_timer_call (e : event) : bool :=
  is_timeout_add e || is_source_remove e.

(** ** Concrete environments and worlds, for the examples *)

Definition default_uri : string := "tcp://localhost:6789".

(** Everything answers, the versions agree and an acquisition is complete
    at the first poll. *)
Definition env_ok : Env :=
  mkEnv (fun _ => Ret tt) (fun _ => Ret "1.0") (fun _ => Ret "1.0")
        (fun _ => Ret "COM1") (fun _ => false)
        (fun _ => Ret [("uno", ["dx.hex"])]) (fun _ => Ret "uploaded")
        (fun _ => Ret true) (fun _ => Ret tt) (fun _ => Ret tt)
        (fun _ => Ret tt) (fun _ => Ret true) (fun _ => Ret tt).

Definition with_update_state (f : nat -> result bool) (e : Env) : Env :=
  mkEnv (env_SerialProxy e) (env_host_software_version e)
        (env_remote_software_version e) (env_port e) (env_yesno e)
        (env_get_firmwares e) (env_upload_firmware e) f (env_terminate e)
        (env_DstatRemote e) (env_start_acquisition e)
        (env_acquisition_complete e) (env_reset e).

Definition with_start_acquisition (f : nat -> result unit) (e : Env) : Env :=
  mkEnv (env_SerialProxy e) (env_host_software_version e)
        (env_remote_software_version e) (env_port e) (env_yesno e)
        (env_get_firmwares e) (env_upload_firmware e) (env_update_state e)
        (env_terminate e) (env_DstatRemote e) f
        (env_acquisition_complete e) (env_reset e).

Definition with_acquisition_complete (f : nat -> result bool) (e : Env)
  : Env :=
  mkEnv (env_SerialProxy e) (env_host_software_version e)
        (env_remote_software_version e) (env_port e) (env_yesno e)
        (env_get_firmwares e) (env_upload_firmware e) (env_update_state e)
        (env_terminate e) (env_DstatRemote e) (env_start_acquisition e)
        f (env_reset e).

Definition with_SerialProxy (f : nat -> result unit) (e : Env) : Env :=
  mkEnv f (env_host_software_version e)
        (env_remote_software_version e) (env_port e) (env_yesno e)
        (env_get_firmwares e) (env_upload_firmware e) (env_update_state e)
        (env_terminate e) (env_DstatRemote e) (env_start_acquisition e)
        (env_acquisition_complete e) (env_reset e).

(** The board cannot apply a state. *)
Definition env_update_fails : Env :=
  with_update_state (fun _ => Ret false) env_ok.

(** The D-Stat remote refuses to start. *)
Definition env_start_raises : Env :=
  with_start_acquisition (fun _ => Raise OtherError) env_ok.

(** The D-Stat remote dies while it is polled. *)
Definition env_poll_raises : Env :=
  with_acquisition_complete (fun _ => Raise OtherError) env_ok.

(** The D-Stat remote cannot be reset. *)
Definition env_reset_raises : Env :=
  mkEnv (fun _ => Ret tt) (fun _ => Ret "1.0") (fun _ => Ret "1.0")
        (fun _ => Ret "COM1") (fun _ => false)
        (fun _ => Ret [("uno", ["dx.hex"])]) (fun _ => Ret "uploaded")
        (fun _ => Ret true) (fun _ => Ret tt) (fun _ => Ret tt)
        (fun _ => Ret tt) (fun _ => Ret true) (fun _ => Raise OtherError).

(** The proxy cannot be opened, for a reason that is not an [IOError]. *)
Definition env_proxy_breaks : Env :=
  with_SerialProxy (fun _ => Raise OtherError) env_ok.

(** No board answers on the serial port. *)
Definition env_no_board : Env :=
  with_SerialProxy (fun _ => Raise IOError) env_ok.

(** The firmware is older than the driver, the user asks for an update and
    no firmware image is found. *)
Definition env_no_firmware : Env :=
  mkEnv (fun _ => Ret tt) (fun _ => Ret "1.1") (fun _ => Ret "1.0")
        (fun _ => Ret "COM1") (fun _ => true)
        (fun _ => Ret []) (fun _ => Ret "uploaded")
        (fun _ => Ret true) (fun _ => Ret tt) (fun _ => Ret tt)
        (fun _ => Ret tt) (fun _ => Ret true) (fun _ => Ret tt).

(** A step that runs the D-Stat and a step that does not. *)
Definition ctx_dstat : Context :=
  mkContext 0 (mkStepOptions true true) [("dstat_uri", default_uri)].

Definition ctx_plain : Context :=
  mkContext 1 (mkStepOptions true false) [("dstat_uri", default_uri)].

(** The plugin enabled with a board, before any step. *)
Definition world_connected : World := run env_ok [OpEnable 10] init_world.

(** The same while the acquisition of a first step is being polled. *)
Definition world_polling : World :=
  run env_ok [OpEnable 10; OpStepRun ctx_dstat] init_world.

(** A timeout that is still registered although the session is gone. *)
Definition world_stale_timer : World :=
  mkWorld (mkPlugin (Some 1) None (Some 0) true) 20 [1] 2 1 [].

(** The board answers once; after the firmware was flashed the port
    cannot be opened again. *)
Definition env_lost_after_flash : Env :=
  mkEnv (fun t => if Nat.ltb t 25 then Ret tt else Raise IOError)
        (fun _ => Ret "1.1") (fun _ => Ret "1.0")
        (fun _ => Ret "COM1") (fun _ => true)
        (fun _ => Ret [("uno", ["dx.hex"])]) (fun _ => Ret "uploaded")
        (fun _ => Ret true) (fun _ => Ret tt) (fun _ => Ret tt)
        (fun _ => Ret tt) (fun _ => Ret true) (fun _ => Ret tt).

(** The acquisition of a first step is being polled when the plugin is
    enabled again and loses its board on the way. *)
Definition world_polling_no_board : World :=
  run env_lost_after_flash [OpEnable 10] world_polling.

(** ** Vocabulary of the statements *)

Definition step_info : string := "[DropbotDxPlugin] on_step_run(): step #%d".

Definition state_error : string := "Could not set state of DropBot DX board.".

Definition connect_warning : string := "Could not connect to DropBot DX.".

(** The [try] block of [connect], with [depth] nested calls of [connect]
    left for the flashing. *)
Definition connect_body (env : Env) (depth : nat) : M unit :=
  h <- fresh_handle ;;
  call NewSerialProxy (env_SerialProxy env) ;;;
  set_dropbot_dx_remote (Some h) ;;;
  b <- the_board ;;
  host_version <- call (HostSoftwareVersion b)
                       (env_host_software_version env) ;;
  b' <- the_board ;;
  remote_version <- call (RemoteSoftwareVersion b')
                         (env_remote_software_version env) ;;
  when (negb (String.eqb remote_version host_version))
       (response <- call YesNo (fun t => Ret (env_yesno env t)) ;;
        when response (on_flash_firmware env depth)) ;;;
  update_state env (Some true) None ;;;
  ret tt.

(** The clock at which [on_step_run] creates the D-Stat remote, with a
    board attached that answered [ok] to [update_state]: after the log
    line and the state update, the two calls of a failed update, and the
    removal of a previous timeout. *)
Definition session_clock (ok : bool) (w : World) : nat :=
  let t := S (S (clock w)) in
  let t' := if ok then t else S (S t) in
  match timeout_id (self w) with
  | Some _ => S t'
  | None => t'
  end.

(** Whether [DstatRemote(app_values['dstat_uri'])], called at clock [t],
    returns a session. *)
Definition session_created (env : Env) (ctx : Context) (t : nat) : bool :=
  match dict_get "dstat_uri" (app_values ctx) with
  | Ret _ => negb (raises (env_DstatRemote env t))
  | Raise _ => false
  end.

(** A computation that leaves the timeouts and the session alone. *)
Definition keeps_timers {A} (m : M A) : Prop :=
  forall w : World,
    sources (snd (m w)) = sources w /\
    peak (snd (m w)) = peak w /\
    timeout_id (self (snd (m w))) = timeout_id (self w) /\
    dstat_remote (self (snd (m w))) = dstat_remote (self w).

(** The invariant: every registered timeout is the one [timeout_id]
    names, so there is at most one, and there never were two; a timeout
    is registered only while a session is held. *)
Definition one_timer (w : World) : Prop :=
  (forall id : nat, In id (sources w) -> timeout_id (self w) = Some id) /\
  List.length (sources w) <= 1 /\
  peak w <= 1 /\
  (sources w <> [] -> dstat_remote (self w) <> None).

(** ** Vocabulary of the further properties *)

Definition waiting_message : string := "Waiting for acquisition to complete...".

(** The board raises when it is sent a state. *)
Definition env_update_raises : Env :=
  with_update_state (fun _ => Raise OtherError) env_ok.

(** The acquisition is still running at the polls made before clock 24. *)
Definition env_slow : Env :=
  with_acquisition_complete
    (fun t => if Nat.ltb t 24 then Ret false else Ret true) env_ok.

Definition is_upload (e : event) : bool :=
  match e with UploadFirmware _ _ _ => true | _ => false end.

Definition is_new_proxy (e : event) : bool :=
  match e with NewSerialProxy => true | _ => false end.

(** The calls [connect] and [on_flash_firmware] contain: the proxy and its
    attributes, the dialog, the firmware tools, the logger, and
    [update_state(light_enabled=True)]. *)
Definition is_connect_event (e : event) : bool :=
  match e with
  | NewSerialProxy | HostSoftwareVersion _ | RemoteSoftwareVersion _
  | SerialPort _ | YesNo | GetFirmwares | UploadFirmware _ _ _
  | LoggerInfo _ | LoggerWarning _ => true
  | UpdateState _ (Some true) None => true
  | _ => false
  end.

(** A computation that only appends to the log, and only events that
    satisfy [P]. *)
Definition logs_only {A} (P : event -> bool) (m : M A) : Prop :=
  forall w : World,
  exists l : list event,
    log (snd (m w)) = log w ++ l /\ forallb P l = true.

(** The calls of the host that run a step or fire a timeout. *)
Definition is_step_op (o : op) : bool :=
  match o with
  | OpStepRun _ | OpTimeout _ => true
  | _ => false
  end.

(** The GTK call an event records, if it is one. *)
Definition gtk_call (e : event) : list string :=
  match e with Gtk s => [s] | _ => [] end.

(** The GTK calls that build the menu, in the order of [on_plugin_enable]. *)
Definition menu_build : list string :=
  ["menu_tools.append(tools_menu_item)";
   "tools_menu.show()";
   "tools_menu_item.set_submenu(tools_menu)";
   "tools_menu.append(menu_item)";
   "menu_item.connect(activate, on_launch_dstat_inteface)";
   "menu_item.show()";
   "tools_menu.append(edit_config_menu_item)";
   "edit_config_menu_item.connect(activate, on_edit_configuration)"].

(** The log of [w'] is the log of [w] with more events after it. *)
Definition extends (w w' : World) : Prop :=
  log w' = log w ++ since w w'.

(** ** Lemmas on the log and the sources *)

Lemma since_app (w w' : World) (l : list event) :
  log w' = log w ++ l -> since w w' = l.
Proof.
  intros H. unfold since. rewrite H.
  generalize (log w) as l0.
  induction l0 as [|e t IH]; simpl; auto.
Qed.

Lemma since_refl (w : World) : since w w = [].
Proof. apply since_app. now rewrite app_nil_r. Qed.

Lemma remove_source_not_in (id : nat) (l : list nat) :
  ~ In id (remove_source id l).
Proof.
  unfold remove_source. rewrite filter_In. intros [_ H].
  now rewrite Nat.eqb_refl in H.
Qed.

Lemma in_sources_existsb (id : nat) (l : list nat) :
  existsb (Nat.eqb id) l = true <-> In id l.
Proof.
  rewrite existsb_exists. split.
  - intros [x [Hin Hx]]. apply Nat.eqb_eq in Hx. now subst.
  - intros H. exists id. split; auto. apply Nat.eqb_refl.
Qed.

(** Names the fields of a world, so that the code computes on it. *)
Ltac destruct_world w :=
  let tid := fresh "tid" in
  let ds := fresh "ds" in
  let board := fresh "board" in
  let ini := fresh "ini" in
  let c := fresh "c" in
  let srcs := fresh "srcs" in
  let nxt := fresh "nxt" in
  let pk := fresh "pk" in
  let lg := fresh "lg" in
  destruct w as [[tid ds board ini] c srcs nxt pk lg]; simpl in *.

(** Runs the monad and the primitive operations, by value. *)
Ltac unfold_monad :=
  cbv beta iota zeta delta
    [on_step_run remote_check_tick on_plugin_disable on_protocol_run
     is_connected
     update_state the_board connected when try_except
     try_except_IOError emit_signal_on_step_complete print_exception
     set_timeout_id set_dstat_remote set_dropbot_dx_remote set_initialized
     gobject_source_remove gobject_timeout_add fresh_handle lift call
     emit set_self get_self bind ret raise
     self clock sources next_source peak log
     timeout_id dstat_remote dropbot_dx_remote initialized fst snd negb
     andb raises].

(** Case analysis on the next answer the code inspects. *)
Ltac destruct_scrutinee :=
  match goal with
  | |- context [match ?x with _ => _ end] =>
      lazymatch x with
      | context [match _ with _ => _ end] => fail
      | _ => destruct x eqn:?
      end
  end.

(** Runs the code along every path. *)
Ltac run_cases := unfold_monad; repeat (destruct_scrutinee; unfold_monad).

Lemma skipn_exact {A} (l x : list A) : skipn (List.length l) (l ++ x) = x.
Proof. induction l as [|e t IH]; simpl; auto. Qed.

(** Computes every [since w w'] of the goal once [log w'] is
    [(log w ++ ..) ++ ..]. *)
Ltac simpl_since :=
  unfold since; simpl; repeat rewrite <- app_assoc;
  repeat rewrite skipn_exact; simpl.

(** ** The poll tick *)

(** The tick catches whatever is raised inside: it always returns. *)
Lemma remote_check_tick_returns (env : Env) (w : World) :
  exists again : bool, fst (remote_check_tick env w) = Ret again.
Proof.
  destruct_world w. run_cases; eexists; reflexivity.
Qed.

(** C9: a poll tick that finds no session ([self.dstat_remote is None])
    emits no [on_step_complete], calls neither the board nor a session and
    leaves the plugin as it was, session reference and timer handle
    included; however often a timeout fires in that state, nothing
    happens. *)
Theorem remote_check_tick_without_session_is_silent :
  forall (env : Env) (w : World),
    dstat_remote (self w) = None ->
    let w' := snd (remote_check_tick env w) in
    completions (since w w') = [] /\
    filter is_board_call (since w w') = [] /\
    filter is_session_call (since w w') = [] /\
    dstat_remote (self w') = dstat_remote (self w) /\
    timeout_id (self w') = timeout_id (self w) /\
    w' = w /\
    (forall ids : list nat, run env (map OpTimeout ids) w = w).
Proof.
  intros env w Hs.
  assert (Htick : remote_check_tick env w = (Ret true, w)).
  { destruct_world w. subst. reflexivity. }
  simpl. rewrite Htick. simpl. rewrite since_refl.
  repeat split; auto.
  induction ids as [|id ids IH]; simpl; auto.
  unfold dispatch_timeout. rewrite Htick.
  destruct (existsb (Nat.eqb id) (sources w)); exact IH.
Qed.

Lemma remote_check_tick_without_session_is_silent_witness :
  completions (since world_stale_timer
                 (snd (remote_check_tick env_ok world_stale_timer))) = [].
Proof.
  apply (remote_check_tick_without_session_is_silent env_ok world_stale_timer).
  reflexivity.
Defined.

(** C7, as the code has it: a poll tick that finds no session returns
    [True], the value that keeps a timeout scheduled, so the main loop
    leaves the timeout registered. *)
Theorem remote_check_tick_without_session_reschedules :
  forall (env : Env) (w : World),
    dstat_remote (self w) = None ->
    fst (remote_check_tick env w) = Ret true /\
    (forall id : nat, sources (dispatch_timeout env id w) = sources w).
Proof.
  intros env w Hs.
  assert (Htick : remote_check_tick env w = (Ret true, w)).
  { destruct_world w. subst. reflexivity. }
  split.
  - now rewrite Htick.
  - intros id. unfold dispatch_timeout. rewrite Htick.
    now destruct (existsb (Nat.eqb id) (sources w)).
Qed.

Lemma remote_check_tick_without_session_reschedules_witness :
  fst (remote_check_tick env_ok world_stale_timer) = Ret true.
Proof.
  apply (remote_check_tick_without_session_reschedules env_ok
           world_stale_timer).
  reflexivity.
Defined.

(** C7 fails as stated: with no session the tick does not return the
    value that stops a timeout, and the timeout that fired is still
    registered afterwards. *)
Lemma remote_check_tick_without_session_not_cancelled :
  dstat_remote (self world_stale_timer) = None /\
  fst (remote_check_tick env_ok world_stale_timer) <> Ret false /\
  sources (dispatch_timeout env_ok 1 world_stale_timer) = [1].
Proof.
  split; [reflexivity|]. split; [|reflexivity].
  vm_compute. discriminate.
Qed.

(** C5, as the code has it: a poll tick whose session reports the
    acquisition complete calls [reset()] on the session once; it never
    reschedules, emits one outcome and clears the session reference and
    the timer handle.  When [reset()] returns and a board is attached, the
    board is then asked once for [light_enabled=True]: the outcome is
    [None] if the board answers true and ['Fail'] if it answers false or
    raises.  When [reset()] raises, or no board is attached, no call is
    made to the board and the outcome is ['Fail']. *)
Theorem remote_check_tick_on_completion :
  forall (env : Env) (w : World) (s : nat),
    dstat_remote (self w) = Some s ->
    env_acquisition_complete env (clock w) = Ret true ->
    let r := remote_check_tick env w in
    let w' := snd r in
    fst r = Ret false /\
    filter is_reset (since w w') = [Reset s] /\
    dstat_remote (self w') = None /\
    timeout_id (self w') = None /\
    List.length (completions (since w w')) = 1 /\
    (forall id : nat, ~ In id (sources (dispatch_timeout env id w))) /\
    (forall b : nat,
        dropbot_dx_remote (self w) = Some b ->
        env_reset env (S (clock w)) = Ret tt ->
        exists rest : list event,
          since w w' =
            AcquisitionComplete s :: Reset s
              :: UpdateState b (Some true) None :: rest /\
          filter is_board_call rest = [] /\
          completions (since w w') =
            match env_update_state env (S (S (clock w))) with
            | Ret true => [OutNone]
            | _ => [Fail]
            end) /\
    filter is_session_call (since w w') = [AcquisitionComplete s; Reset s] /\
    filter is_board_call (since w w') =
      match env_reset env (S (clock w)), dropbot_dx_remote (self w) with
      | Ret _, Some b => [UpdateState b (Some true) None]
      | _, _ => []
      end /\
    completions (since w w') =
      match env_reset env (S (clock w)), dropbot_dx_remote (self w) with
      | Ret _, Some _ =>
          match env_update_state env (S (S (clock w))) with
          | Ret true => [OutNone]
          | _ => [Fail]
          end
      | _, _ => [Fail]
      end.
Proof.
  intros env w s Hs Hdone.
  assert (Hcore :
    fst (remote_check_tick env w) = Ret false /\
    filter is_reset (since w (snd (remote_check_tick env w))) = [Reset s] /\
    dstat_remote (self (snd (remote_check_tick env w))) = None /\
    timeout_id (self (snd (remote_check_tick env w))) = None /\
    List.length (completions (since w (snd (remote_check_tick env w)))) = 1).
  { destruct_world w. subst. unfold_monad. rewrite Hdone.
    destruct (env_reset env (S c)) as [[]|e];
      [destruct board as [b|];
       [destruct (env_update_state env (S (S c))) as [[|]|e]|]|];
      simpl_since; repeat split; reflexivity. }
  assert (Hcalls :
    filter is_session_call (since w (snd (remote_check_tick env w)))
    = [AcquisitionComplete s; Reset s] /\
    filter is_board_call (since w (snd (remote_check_tick env w))) =
      match env_reset env (S (clock w)), dropbot_dx_remote (self w) with
      | Ret _, Some b => [UpdateState b (Some true) None]
      | _, _ => []
      end /\
    completions (since w (snd (remote_check_tick env w))) =
      match env_reset env (S (clock w)), dropbot_dx_remote (self w) with
      | Ret _, Some _ =>
          match env_update_state env (S (S (clock w))) with
          | Ret true => [OutNone]
          | _ => [Fail]
          end
      | _, _ => [Fail]
      end).
  { destruct_world w. subst. unfold_monad. rewrite Hdone.
    destruct (env_reset env (S c)) as [[]|e];
      [destruct board as [b|];
       [destruct (env_update_state env (S (S c))) as [[|]|e]|]|];
      simpl_since; repeat split; reflexivity. }
  destruct Hcore as (Hr & Hreset & Hsess & Htid & Hlen).
  destruct Hcalls as (Hsc & Hbc & Hout).
  cbv zeta.
  split; [exact Hr|]. split; [exact Hreset|]. split; [exact Hsess|].
  split; [exact Htid|]. split; [exact Hlen|].
  split; [|split; [|split; [exact Hsc|split; [exact Hbc|exact Hout]]]].
  - intros id. unfold dispatch_timeout.
    destruct (existsb (Nat.eqb id) (sources w)) eqn:Hin.
    + destruct (remote_check_tick env w) as [[[|]|e] w1]; simpl in *;
        try discriminate; apply remove_source_not_in.
    + intros H. apply in_sources_existsb in H. congruence.
  - intros b Hb Hres.
    destruct_world w. subst. unfold_monad. rewrite Hdone, Hres.
    destruct (env_update_state env (S (S c))) as [[|]|e];
      simpl_since; eexists; repeat split; reflexivity.
Qed.

Lemma remote_check_tick_on_completion_witness :
  fst (remote_check_tick env_ok world_polling) = Ret false /\
  filter is_reset
    (since world_polling (snd (remote_check_tick env_ok world_polling)))
  = [Reset 17].
Proof.
  pose proof (remote_check_tick_on_completion env_ok world_polling 17
                eq_refl eq_refl) as H.
  split; apply H.
Defined.

(** C5 fails as stated: when the acquisition is complete and [reset()]
    raises, the board is not asked to switch the light on; the tick goes
    straight to the handler and emits ['Fail']. *)
Lemma remote_check_tick_reset_failure_no_light :
  let w' := snd (remote_check_tick env_reset_raises world_polling) in
  dstat_remote (self world_polling) = Some 17 /\
  dropbot_dx_remote (self world_polling) = Some 0 /\
  env_acquisition_complete env_reset_raises (clock world_polling)
  = Ret true /\
  existsb is_board_call (since world_polling w') = false /\
  since world_polling w' =
    [AcquisitionComplete 17; Reset 17;
     Print "Exception in user code:";
     Print "------------------------------------------------------------";
     PrintExc;
     Print "------------------------------------------------------------";
     EmitStepComplete Fail].
Proof. vm_compute. repeat split. Qed.

(** C6, as the code has it: a poll tick in which [acquisition_complete()]
    raises makes no call to the board; it prints the traceback, emits
    ['Fail'] once, clears the session reference and the timer handle and
    returns [False], so the timeout is dropped. *)
Theorem remote_check_tick_on_poll_failure :
  forall (env : Env) (w : World) (s : nat),
    dstat_remote (self w) = Some s ->
    raises (env_acquisition_complete env (clock w)) = true ->
    let r := remote_check_tick env w in
    let w' := snd r in
    fst r = Ret false /\
    filter is_board_call (since w w') = [] /\
    filter is_session_call (since w w') = [AcquisitionComplete s] /\
    completions (since w w') = [Fail] /\
    dstat_remote (self w') = None /\
    timeout_id (self w') = None /\
    (forall id : nat, ~ In id (sources (dispatch_timeout env id w))).
Proof.
  intros env w s Hs Hraise.
  assert (Hcore :
    fst (remote_check_tick env w) = Ret false /\
    filter is_board_call (since w (snd (remote_check_tick env w))) = [] /\
    filter is_session_call (since w (snd (remote_check_tick env w)))
    = [AcquisitionComplete s] /\
    completions (since w (snd (remote_check_tick env w))) = [Fail] /\
    dstat_remote (self (snd (remote_check_tick env w))) = None /\
    timeout_id (self (snd (remote_check_tick env w))) = None).
  { destruct_world w. subst. unfold_monad.
    destruct (env_acquisition_complete env c) as [d|e];
      [discriminate|].
    simpl_since. repeat split; reflexivity. }
  destruct Hcore as (Hr & Hb & Hc & Hf & Hsess & Htid).
  cbv zeta. repeat split; auto.
  intros id. unfold dispatch_timeout.
  destruct (existsb (Nat.eqb id) (sources w)) eqn:Hin.
  - destruct (remote_check_tick env w) as [[[|]|e] w1]; simpl in *;
      try discriminate; apply remove_source_not_in.
  - intros H. apply in_sources_existsb in H. congruence.
Qed.

Lemma remote_check_tick_on_poll_failure_witness :
  completions
    (since world_polling (snd (remote_check_tick env_poll_raises world_polling)))
  = [Fail].
Proof.
  apply (remote_check_tick_on_poll_failure env_poll_raises world_polling 17);
    reflexivity.
Defined.

(** C6 fails as stated: when the poll raises, ['Fail'] is emitted and the
    board was not asked to switch the light on. *)
Lemma remote_check_tick_poll_failure_no_light :
  let w' := snd (remote_check_tick env_poll_raises world_polling) in
  raises (env_acquisition_complete env_poll_raises (clock world_polling))
  = true /\
  dropbot_dx_remote (self world_polling) = Some 0 /\
  completions (since world_polling w') = [Fail] /\
  existsb is_board_call (since world_polling w') = false /\
  since world_polling w' =
    [AcquisitionComplete 17;
     Print "Exception in user code:";
     Print "------------------------------------------------------------";
     PrintExc;
     Print "------------------------------------------------------------";
     EmitStepComplete Fail].
Proof. vm_compute. repeat split. Qed.

(** ** Running a step *)

(** With a board attached, [on_step_run] first logs the step and sends the
    state to the board, and makes no other call to the board. *)
Lemma on_step_run_connected_prefix (env : Env) (ctx : Context) (w : World)
      (b : nat) :
  dropbot_dx_remote (self w) = Some b ->
  exists rest : list event,
    since w (snd (on_step_run env ctx w)) =
      LoggerInfo step_info
        :: UpdateState b (Some (negb (dstat_enabled (step_options ctx))))
                       (Some (magnet_engaged (step_options ctx)))
        :: rest /\
    filter is_board_call rest = [].
Proof.
  intros Hb. destruct_world w. subst.
  run_cases; simpl_since; eexists; split; reflexivity.
Qed.

(** X3: the outcomes [on_step_run] emits before it returns, branch by branch:
    [None] without a board; nothing when [update_state] raises; otherwise
    ['Fail'] for a board that answers false, followed by [None] without
    acquisition, by ['Fail'] when the acquisition cannot be started, and
    by nothing when it was started (the poll tick will emit). *)
Lemma on_step_run_completions (env : Env) (ctx : Context) (w : World) :
  completions (since w (snd (on_step_run env ctx w))) =
    match dropbot_dx_remote (self w) with
    | None => [OutNone]
    | Some _ =>
        match env_update_state env (S (clock w)) with
        | Raise _ => []
        | Ret ok =>
            (if ok then [] else [Fail]) ++
            (if dstat_enabled (step_options ctx) then
               let t := session_clock ok w in
               if session_created env ctx t
                  && negb (raises (env_start_acquisition env (S t)))
               then []
               else [Fail]
             else [OutNone])
        end
    end.
Proof.
  unfold session_clock, session_created. destruct_world w.
  run_cases; simpl_since; reflexivity.
Qed.

(** C3: with a board attached, [on_step_run] calls [update_state] with
    [light_enabled = not dstat_enabled] and [magnet_engaged] as the step
    has it, and makes no other call to the board; when the board answers
    false, ['Fail'] is emitted and the code goes on to the [dstat_enabled]
    test: without acquisition it emits [None] as well, with acquisition it
    creates the D-Stat remote. *)
Theorem on_step_run_applies_state_then_tests_dstat :
  forall (env : Env) (ctx : Context) (w : World) (b : nat),
    dropbot_dx_remote (self w) = Some b ->
    let options := step_options ctx in
    let w' := snd (on_step_run env ctx w) in
    exists rest : list event,
      since w w' =
        LoggerInfo step_info
          :: UpdateState b (Some (negb (dstat_enabled options)))
                         (Some (magnet_engaged options))
          :: rest /\
      filter is_board_call rest = [] /\
      (env_update_state env (S (clock w)) = Ret false ->
       exists rest' : list event,
         rest = LoggerError state_error :: EmitStepComplete Fail :: rest' /\
         (dstat_enabled options = false ->
          rest' = [EmitStepComplete OutNone]) /\
         (dstat_enabled options = true ->
          forall uri : string,
            dict_get "dstat_uri" (app_values ctx) = Ret uri ->
            In (NewDstatRemote uri) rest')).
Proof.
  intros env ctx w b Hb. cbv zeta.
  destruct_world w. subst. unfold_monad.
  destruct (env_update_state env (S c)) as [[|]|e]; unfold_monad.
  - run_cases; simpl_since; eexists;
      (split; [reflexivity|]); (split; [reflexivity|]); discriminate.
  - destruct (dstat_enabled (step_options ctx)) eqn:Hd; unfold_monad.
    + run_cases; simpl_since; eexists;
        (split; [reflexivity|]); (split; [reflexivity|]);
        intros _; eexists; (split; [reflexivity|]);
        (split; [discriminate|]); intros _ uri' Huri;
        try discriminate; inversion Huri; subst; simpl; auto 10.
    + simpl_since. eexists.
      split; [reflexivity|]. split; [reflexivity|].
      intros _. eexists. split; [reflexivity|].
      split; [reflexivity | discriminate].
  - simpl_since. eexists.
    split; [reflexivity|]. split; [reflexivity|]. discriminate.
Qed.

Lemma on_step_run_applies_state_then_tests_dstat_witness :
  exists rest : list event,
    since world_connected (snd (on_step_run env_update_fails ctx_plain
                                            world_connected)) =
      LoggerInfo step_info :: UpdateState 0 (Some true) (Some true) :: rest /\
    filter is_board_call rest = [] /\
    exists rest' : list event,
      rest = LoggerError state_error :: EmitStepComplete Fail :: rest' /\
      rest' = [EmitStepComplete OutNone].
Proof.
  destruct (on_step_run_applies_state_then_tests_dstat
              env_update_fails ctx_plain world_connected 0 eq_refl)
    as (rest & Hlog & Hboard & Hfail).
  exists rest. split; [exact Hlog|]. split; [exact Hboard|].
  destruct (Hfail eq_refl) as (rest' & Hrest & Hnone & _).
  exists rest'. split; [exact Hrest|]. apply Hnone. reflexivity.
Defined.

(** C1 does not hold of the code: with a board attached that answers false
    to [update_state], a step without acquisition emits ['Fail'] and then
    [None], two outcomes for one step and no poll tick involved. *)
Theorem on_step_run_failed_update_emits_twice :
  forall (env : Env) (ctx : Context) (w : World) (b : nat),
    dropbot_dx_remote (self w) = Some b ->
    env_update_state env (S (clock w)) = Ret false ->
    dstat_enabled (step_options ctx) = false ->
    completions (since w (snd (on_step_run env ctx w))) = [Fail; OutNone].
Proof.
  intros env ctx w b Hb Hupd Hd.
  destruct_world w. subst. unfold_monad. rewrite Hupd. unfold_monad.
  rewrite Hd. simpl_since. reflexivity.
Qed.

Lemma on_step_run_failed_update_emits_twice_witness :
  completions
    (since world_connected
           (snd (on_step_run env_update_fails ctx_plain world_connected)))
  = [Fail; OutNone].
Proof.
  apply (on_step_run_failed_update_emits_twice env_update_fails ctx_plain
           world_connected 0); reflexivity.
Defined.

(** C10: [on_plugin_disable] leaves the board handle as it was, so
    [connected()] answers as before; with a board attached it calls
    [terminate()] on it, [connected()] is still true afterwards, and the
    next [on_step_run] takes the connected branch: it sends the state to
    the board. *)
Theorem on_plugin_disable_keeps_board_handle :
  forall (env : Env) (w : World),
    let w' := snd (on_plugin_disable env w) in
    dropbot_dx_remote (self w') = dropbot_dx_remote (self w) /\
    fst (connected w') = fst (connected w) /\
    (forall b : nat,
        dropbot_dx_remote (self w) = Some b ->
        fst (connected w') = Ret true /\
        filter is_board_call (since w w') = [Terminate b] /\
        forall ctx : Context,
        exists rest : list event,
          since w' (snd (on_step_run env ctx w')) =
            LoggerInfo step_info
              :: UpdateState b
                   (Some (negb (dstat_enabled (step_options ctx))))
                   (Some (magnet_engaged (step_options ctx)))
              :: rest).
Proof.
  intros env w. cbv zeta.
  assert (Hkeep : dropbot_dx_remote (self (snd (on_plugin_disable env w)))
                  = dropbot_dx_remote (self w)).
  { destruct_world w. run_cases; reflexivity. }
  split; [exact Hkeep|]. split.
  - unfold connected, bind, get_self, ret. simpl. now rewrite Hkeep.
  - intros b Hb. split; [|split].
    + unfold connected, bind, get_self, ret. simpl.
      now rewrite Hkeep, Hb.
    + destruct_world w. subst. run_cases; simpl_since; reflexivity.
    + intros ctx.
      destruct (on_step_run_connected_prefix env ctx
                  (snd (on_plugin_disable env w)) b) as (rest & Hrest & _).
      * now rewrite Hkeep.
      * exists rest. exact Hrest.
Qed.

Lemma on_plugin_disable_keeps_board_handle_witness :
  fst (connected (snd (on_plugin_disable env_ok world_connected)))
  = Ret true.
Proof.
  apply (on_plugin_disable_keeps_board_handle env_ok world_connected) with 0.
  reflexivity.
Defined.

(** C4, as the code has it: with a board attached and [dstat_enabled],
    when creating the D-Stat remote or starting the acquisition raises,
    [on_step_run] returns after emitting ['Fail'], registers no timeout
    (a previous one was removed) and does not touch [timeout_id]; the
    session reference is not cleared: it holds the new session when
    [start_acquisition] raised and keeps its previous value when the
    creation raised. *)
Theorem on_step_run_acquisition_start_failure :
  forall (env : Env) (ctx : Context) (w : World) (b : nat) (ok : bool),
    dropbot_dx_remote (self w) = Some b ->
    dstat_enabled (step_options ctx) = true ->
    env_update_state env (S (clock w)) = Ret ok ->
    let t := session_clock ok w in
    session_created env ctx t = false \/
    raises (env_start_acquisition env (S t)) = true ->
    let r := on_step_run env ctx w in
    let w' := snd r in
    fst r = Ret tt /\
    (exists before : list event,
        since w w' = before ++ [EmitStepComplete Fail]) /\
    filter is_timeout_add (since w w') = [] /\
    sources w' =
      match timeout_id (self w) with
      | Some old => remove_source old (sources w)
      | None => sources w
      end /\
    timeout_id (self w') = timeout_id (self w) /\
    dstat_remote (self w') =
      if session_created env ctx t then Some t else dstat_remote (self w).
Proof.
  intros env ctx w b ok Hb Hd Hupd. cbv zeta.
  unfold session_clock, session_created.
  destruct_world w. subst. intros Hfail.
  unfold_monad. rewrite Hupd. unfold_monad. rewrite Hd.
  destruct ok, tid as [old|]; unfold_monad;
    (destruct (dict_get "dstat_uri" (app_values ctx)) as [uri|e1];
     unfold_monad;
     [match goal with
      | |- context [env_DstatRemote env ?t] =>
          destruct (env_DstatRemote env t) as [[]|e2]; simpl in Hfail;
          unfold_monad;
          [destruct (env_start_acquisition env (S t)) as [[]|e3];
           simpl in Hfail; unfold_monad;
           [destruct Hfail; discriminate|]|]
      end|]);
    simpl_since;
    (split; [reflexivity|]);
    (split; [match goal with
             | |- exists before : list event, ?l = before ++ [_] =>
                 exists (removelast l); reflexivity
             end|]);
    repeat split; reflexivity.
Qed.

Lemma on_step_run_acquisition_start_failure_witness :
  filter is_timeout_add
    (since world_connected
           (snd (on_step_run env_start_raises ctx_dstat world_connected)))
  = [].
Proof.
  apply (on_step_run_acquisition_start_failure env_start_raises ctx_dstat
           world_connected 0 true); try reflexivity.
  right. reflexivity.
Defined.

(** C4 fails as stated: when [start_acquisition] raises, ['Fail'] is
    emitted and no timeout is registered, but the session reference, empty
    before the step, now holds the session that failed to start. *)
Lemma on_step_run_start_failure_keeps_session :
  let w' := snd (on_step_run env_start_raises ctx_dstat world_connected) in
  raises (env_start_acquisition env_start_raises 18) = true /\
  In (StartAcquisition 17) (since world_connected w') /\
  completions (since world_connected w') = [Fail] /\
  sources w' = [] /\
  dstat_remote (self world_connected) = None /\
  dstat_remote (self w') = Some 17 /\
  dstat_remote (self w') <> None.
Proof.
  vm_compute. repeat split; auto; discriminate.
Qed.

(** ** Connecting to the board *)

(** C8, as the code has it: [connect()] catches [IOError] and nothing
    else.  It never raises [IOError]: an [IOError] raised in its [try]
    block ends in the warning and a normal return; when
    [dx.SerialProxy()] raises [IOError] the plugin, board handle included,
    is left as it was.  An exception of any other class raised in the
    [try] block leaves [connect()] as it is, without a warning: so for
    the proxy constructor, and so for [update_state].  When the proxy
    opens and the firmware version matches the driver's, or the user
    declines the update, it sends [light_enabled=True] to the new board
    and returns if the board answers. *)
Theorem connect_catches_IOError_only :
  forall (env : Env) (depth : nat) (w : World),
    let r := connect env (S depth) w in
    let w' := snd r in
    let c := clock w in
    fst r <> Raise IOError /\
    fst (connect env 0 w) <> Raise IOError /\
    (env_SerialProxy env c = Raise IOError ->
     fst r = Ret tt /\
     self w' = self w /\
     since w w' = [NewSerialProxy; LoggerWarning connect_warning]) /\
    (forall (host remote : string) (ok : bool),
        env_SerialProxy env c = Ret tt ->
        env_host_software_version env (S c) = Ret host ->
        env_remote_software_version env (S (S c)) = Ret remote ->
        (if String.eqb remote host
         then env_update_state env (S (S (S c))) = Ret ok
         else env_yesno env (S (S (S c))) = false /\
              env_update_state env (S (S (S (S c)))) = Ret ok) ->
        fst r = Ret tt /\
        dropbot_dx_remote (self w') = Some c /\
        filter is_board_call (since w w') =
          [HostSoftwareVersion c; RemoteSoftwareVersion c;
           UpdateState c (Some true) None]) /\
    (forall (e : exn) (w1 : World),
        connect_body env depth w = (Raise e, w1) ->
        is_IOError e = false ->
        r = (Raise e, w1)) /\
    (forall (e : exn) (w1 : World),
        connect_body env depth w = (Raise e, w1) ->
        is_IOError e = true ->
        fst r = Ret tt /\
        self w' = self w1 /\
        log w' = log w1 ++ [LoggerWarning connect_warning]) /\
    (forall w1 : World,
        connect_body env depth w = (Ret tt, w1) -> r = (Ret tt, w1)) /\
    (forall e : exn,
        env_SerialProxy env c = Raise e ->
        is_IOError e = false ->
        fst r = Raise e /\
        self w' = self w /\
        since w w' = [NewSerialProxy]) /\
    (forall (host : string) (e : exn),
        env_SerialProxy env c = Ret tt ->
        env_host_software_version env (S c) = Ret host ->
        env_remote_software_version env (S (S c)) = Ret host ->
        env_update_state env (S (S (S c))) = Raise e ->
        is_IOError e = false ->
        fst r = Raise e /\
        dropbot_dx_remote (self w') = Some c /\
        since w w' =
          [NewSerialProxy; HostSoftwareVersion c; RemoteSoftwareVersion c;
           UpdateState c (Some true) None]).
Proof.
  intros env depth w. cbv zeta.
  assert (Hshape :
    connect env (S depth) w =
    try_except_IOError (connect_body env depth)
                       (emit (LoggerWarning connect_warning)) w)
    by reflexivity.
  split; [|split; [|split; [|split; [|split; [|split; [|split; [|split]]]]]]].
  - cbn [connect]. unfold try_except_IOError.
    match goal with
    | |- context [match ?m w with _ => _ end] =>
        destruct (m w) as [[a|e] w1]
    end; [simpl; discriminate|].
    destruct e; simpl; discriminate.
  - simpl. discriminate.
  - intros Hproxy. cbn [connect]. destruct_world w. unfold_monad.
    rewrite Hproxy. unfold_monad. simpl_since. repeat split.
  - intros host remote ok Hproxy Hhost Hremote Hrest.
    cbn [connect]. destruct_world w. unfold_monad.
    rewrite Hproxy. unfold_monad. rewrite Hhost. unfold_monad.
    rewrite Hremote. unfold_monad.
    destruct (String.eqb remote host).
    + rewrite Hrest. unfold_monad. simpl_since. repeat split.
    + destruct Hrest as [Hno Hupd]. unfold_monad.
      rewrite Hno. unfold_monad. rewrite Hupd. unfold_monad.
      simpl_since. repeat split.
  - intros e w1 Hbody He. rewrite Hshape. unfold try_except_IOError.
    now rewrite Hbody, He.
  - intros e w1 Hbody He. rewrite Hshape. unfold try_except_IOError.
    rewrite Hbody, He. simpl. repeat split.
  - intros w1 Hbody. rewrite Hshape. unfold try_except_IOError.
    now rewrite Hbody.
  - intros e Hproxy He. cbn [connect]. destruct_world w. unfold_monad.
    rewrite Hproxy. unfold_monad.
    destruct e; try discriminate; unfold_monad; simpl_since; repeat split.
  - intros host e Hproxy Hhost Hremote Hupd He.
    cbn [connect]. destruct_world w. unfold_monad.
    rewrite Hproxy. unfold_monad. rewrite Hhost. unfold_monad.
    rewrite Hremote. unfold_monad. rewrite String.eqb_refl. unfold_monad.
    rewrite Hupd. unfold_monad.
    destruct e; try discriminate; unfold_monad; simpl_since; repeat split.
Qed.

Lemma connect_catches_IOError_only_witness :
  (fst (connect env_no_board 10 init_world) = Ret tt /\
   self (snd (connect env_no_board 10 init_world)) = self init_world /\
   since init_world (snd (connect env_no_board 10 init_world)) =
     [NewSerialProxy; LoggerWarning connect_warning]) /\
  (fst (connect env_proxy_breaks 10 init_world) = Raise OtherError /\
   self (snd (connect env_proxy_breaks 10 init_world)) = self init_world /\
   since init_world (snd (connect env_proxy_breaks 10 init_world)) =
     [NewSerialProxy]).
Proof.
  split.
  - destruct (connect_catches_IOError_only env_no_board 9 init_world)
      as (_ & _ & Hcaught & _).
    apply Hcaught. reflexivity.
  - destruct (connect_catches_IOError_only env_proxy_breaks 9 init_world)
      as (_ & _ & _ & _ & _ & _ & _ & Hraised & _).
    apply (Hraised OtherError); reflexivity.
Defined.

(** C8 fails as stated: an exception that is not an [IOError] leaves
    [connect()], here the [IndexError] of [on_flash_firmware] when no
    firmware image is found; and a transport failure does not disconnect:
    a plugin that held a board keeps the handle when the port cannot be
    opened again. *)
Lemma connect_propagates_IndexError :
  fst (connect env_no_firmware 10 init_world) = Raise IndexError /\
  env_SerialProxy env_no_board (clock world_connected) = Raise IOError /\
  dropbot_dx_remote (self (snd (connect env_no_board 10 world_connected)))
  = Some 0 /\
  fst (connected (snd (connect env_no_board 10 world_connected)))
  = Ret true.
Proof. vm_compute. repeat split. Qed.

(** ** Timers *)

Create HintDb timers.

Lemma keeps_ret {A} (a : A) : keeps_timers (ret a).
Proof. intros w. simpl. auto. Qed.

Lemma keeps_raise {A} (e : exn) : keeps_timers (@raise A e).
Proof. intros w. simpl. auto. Qed.

Lemma keeps_lift {A} (r : result A) : keeps_timers (lift r).
Proof. intros w. simpl. auto. Qed.

Lemma keeps_emit (ev : event) : keeps_timers (emit ev).
Proof. intros w. simpl. auto. Qed.

Lemma keeps_call {A} (ev : event) (answer : nat -> result A) :
  keeps_timers (call ev answer).
Proof. intros w. simpl. auto. Qed.

Lemma keeps_get_self : keeps_timers get_self.
Proof. intros w. simpl. auto. Qed.

Lemma keeps_fresh_handle : keeps_timers fresh_handle.
Proof. intros w. simpl. auto. Qed.

Lemma keeps_set_dropbot_dx_remote (v : option nat) :
  keeps_timers (set_dropbot_dx_remote v).
Proof. intros w. simpl. auto. Qed.

Lemma keeps_set_initialized (v : bool) : keeps_timers (set_initialized v).
Proof. intros w. simpl. auto. Qed.

Lemma keeps_bind {A B} (m : M A) (k : A -> M B) :
  keeps_timers m -> (forall a : A, keeps_timers (k a)) ->
  keeps_timers (bind m k).
Proof.
  intros Hm Hk w. unfold bind.
  specialize (Hm w). destruct (m w) as [[a|e] w1]; simpl in *; auto.
  specialize (Hk a w1). destruct Hm as (H1 & H2 & H3 & H4).
  destruct Hk as (K1 & K2 & K3 & K4).
  rewrite K1, K2, K3, K4. auto.
Qed.

Lemma keeps_when (b : bool) (m : M unit) :
  keeps_timers m -> keeps_timers (when b m).
Proof. intros Hm. destruct b; simpl; auto. apply keeps_ret. Qed.

Lemma keeps_try_except_IOError {A} (body handler : M A) :
  keeps_timers body -> keeps_timers handler ->
  keeps_timers (try_except_IOError body handler).
Proof.
  intros Hb Hh w. unfold try_except_IOError.
  specialize (Hb w). destruct (body w) as [[a|e] w1]; simpl in *; auto.
  destruct (is_IOError e); simpl; auto.
  specialize (Hh w1). destruct Hb as (H1 & H2 & H3 & H4).
  destruct Hh as (K1 & K2 & K3 & K4).
  rewrite K1, K2, K3, K4. auto.
Qed.

Lemma keeps_the_board : keeps_timers the_board.
Proof.
  intros w. unfold the_board, bind, get_self.
  destruct (dropbot_dx_remote (self w)); simpl; auto.
Qed.

Lemma keeps_connected : keeps_timers connected.
Proof. intros w. simpl. auto. Qed.

#[local] Hint Resolve keeps_ret keeps_raise keeps_lift keeps_emit keeps_call
  keeps_get_self keeps_fresh_handle keeps_set_dropbot_dx_remote
  keeps_set_initialized keeps_bind keeps_when keeps_try_except_IOError
  keeps_the_board keeps_connected : timers.

Lemma keeps_update_state (env : Env) (light magnet : option bool) :
  keeps_timers (update_state env light magnet).
Proof. unfold update_state. auto with timers. Qed.

Lemma keeps_on_flash_firmware_with (env : Env) (reconnect : M unit) :
  keeps_timers reconnect ->
  keeps_timers (on_flash_firmware_with env reconnect).
Proof. intros H. unfold on_flash_firmware_with. auto 20 with timers. Qed.

#[local] Hint Resolve keeps_update_state keeps_on_flash_firmware_with
  : timers.

Lemma keeps_connect (env : Env) (depth : nat) :
  keeps_timers (connect env depth).
Proof.
  induction depth as [|d IH]; cbn [connect]; auto 30 with timers.
Qed.

Lemma keeps_on_plugin_enable (env : Env) (depth : nat) :
  keeps_timers (on_plugin_enable env depth).
Proof.
  unfold on_plugin_enable. apply keeps_bind; [apply keeps_connect|].
  intros _. auto 30 with timers.
Qed.

Lemma keeps_on_plugin_disable (env : Env) :
  keeps_timers (on_plugin_disable env).
Proof.
  unfold on_plugin_disable.
  apply keeps_bind; [auto with timers|]. intros c.
  apply keeps_bind; [auto 10 with timers|]. intros _.
  apply keeps_bind; [auto with timers|]. intros p.
  destruct (initialized p); auto with timers.
Qed.

Lemma keeps_on_protocol_run : keeps_timers on_protocol_run.
Proof.
  unfold on_protocol_run, is_connected.
  apply keeps_bind; [auto with timers|]. intros c.
  destruct (negb c); auto with timers.
Qed.

Lemma one_timer_sources (w : World) :
  one_timer w ->
  sources w = [] \/
  exists id : nat,
    sources w = [id] /\ timeout_id (self w) = Some id /\
    dstat_remote (self w) <> None.
Proof.
  intros (Hin & Hlen & _ & Hsess).
  destruct (sources w) as [|id [|id' l]] eqn:Hs; auto.
  - right. exists id. repeat split; auto.
    + apply Hin. now left.
    + apply Hsess. discriminate.
  - simpl in Hlen. lia.
Qed.

Lemma one_timer_keeps {A} (m : M A) (w : World) :
  keeps_timers m -> one_timer w -> one_timer (snd (m w)).
Proof.
  intros Hk (Hin & Hlen & Hpeak & Hsess).
  destruct (Hk w) as (H1 & H2 & H3 & H4).
  unfold one_timer. rewrite H1, H2, H3, H4. auto.
Qed.

Lemma remove_source_single (id : nat) : remove_source id [id] = [].
Proof. unfold remove_source. simpl. now rewrite Nat.eqb_refl. Qed.

Lemma one_timer_intro (p : Plugin) (c : nat) (srcs : list nat)
      (nxt pk : nat) (lg : list event) :
  (srcs = [] \/
   exists id, srcs = [id] /\ timeout_id p = Some id /\
              dstat_remote p <> None) ->
  pk <= 1 ->
  one_timer (mkWorld p c srcs nxt pk lg).
Proof.
  intros [Hs | (id & Hs & Ht & Hd)] Hpk; subst; unfold one_timer; simpl.
  - repeat split; auto. intros id [].
  - repeat split; auto. intros x [Hx | []]. now subst.
Qed.

(** Closes the two premises of [one_timer_intro] on a computed world. *)
Ltac solve_one_timer :=
  apply one_timer_intro; simpl;
  [first [left; reflexivity
         |right; eexists; repeat split;
          first [reflexivity | assumption | congruence]]
  |lia].

Lemma one_timer_on_step_run (env : Env) (ctx : Context) (w : World) :
  one_timer w -> one_timer (snd (on_step_run env ctx w)).
Proof.
  intros Hinv. pose proof (one_timer_sources w Hinv) as Hs.
  destruct Hinv as (_ & _ & Hpk & _).
  destruct_world w.
  destruct Hs as [Hs | (id & Hs & Ht & Hd)]; subst;
    run_cases; rewrite ?remove_source_single; solve_one_timer.
Qed.

Lemma one_timer_dispatch_timeout (env : Env) (id : nat) (w : World) :
  one_timer w -> one_timer (dispatch_timeout env id w).
Proof.
  intros Hinv. pose proof (one_timer_sources w Hinv) as Hs.
  pose proof Hinv as (_ & _ & Hpk & _).
  unfold dispatch_timeout.
  destruct (existsb (Nat.eqb id) (sources w)) eqn:Hin; auto.
  apply in_sources_existsb in Hin.
  destruct Hs as [Hs | (id' & Hs & Ht & Hd)].
  - rewrite Hs in Hin. destruct Hin.
  - rewrite Hs in Hin. destruct Hin as [Hid | []]. subst id'.
    clear Hinv. destruct_world w. subst. unfold drop_source.
    run_cases; rewrite ?remove_source_single;
      first [congruence | solve_one_timer].
Qed.

Lemma one_timer_step (env : Env) (o : op) (w : World) :
  one_timer w -> one_timer (step env w o).
Proof.
  intros Hinv. destruct o as [depth| | |ctx|id]; simpl.
  - apply one_timer_keeps; auto. apply keeps_on_plugin_enable.
  - apply one_timer_keeps; auto. apply keeps_on_plugin_disable.
  - apply one_timer_keeps; auto. apply keeps_on_protocol_run.
  - now apply one_timer_on_step_run.
  - now apply one_timer_dispatch_timeout.
Qed.

Lemma one_timer_run (env : Env) (ops : list op) (w : World) :
  one_timer w -> one_timer (run env ops w).
Proof.
  revert w. induction ops as [|o ops IH]; intros w Hinv; simpl; auto.
  apply IH. now apply one_timer_step.
Qed.

Lemma one_timer_init : one_timer init_world.
Proof. apply one_timer_intro; auto. Qed.

(** Where [on_step_run] touches the timeouts, from a world with at most
    one of them. *)
Lemma on_step_run_timer_branches (env : Env) (ctx : Context) (w : World) :
  one_timer w ->
  (dropbot_dx_remote (self w) = None \/
   dstat_enabled (step_options ctx) = false ->
   filter is_timer_call (since w (snd (on_step_run env ctx w))) = [] /\
   sources (snd (on_step_run env ctx w)) = sources w /\
   timeout_id (self (snd (on_step_run env ctx w))) = timeout_id (self w)) /\
  (forall interval id : nat,
      In (TimeoutAdd interval id) (since w (snd (on_step_run env ctx w))) ->
      sources (snd (on_step_run env ctx w)) = [id] /\
      forall old : nat,
        In old (sources w) ->
        In (SourceRemove old) (since w (snd (on_step_run env ctx w)))).
Proof.
  intros Hinv. pose proof (one_timer_sources w Hinv) as Hs. clear Hinv.
  destruct_world w.
  destruct Hs as [Hs | (id0 & Hs & Ht & _)]; subst;
    run_cases; rewrite ?remove_source_single; simpl_since;
    (split;
     [intros [H | H]; try discriminate; repeat split; reflexivity
     |intros interval id Hin;
      repeat (destruct Hin as [Hin | Hin]; try discriminate);
      try contradiction;
      inversion Hin; subst;
      (split; [reflexivity|]);
      intros old Hold; simpl in Hold;
      repeat (destruct Hold as [Hold | Hold]; try contradiction);
      subst; simpl; auto 10]).
Qed.

(** C2, as the code has it: along every sequence of calls of the host
    (enabling, disabling, protocol start, steps, timeouts firing) at most
    one timeout is registered at any instant, and it is the one that
    [timeout_id] names, registered only while a session is held.
    [on_step_run] removes it only where it registers a new one, and then
    before it does: a step whose board is missing or whose acquisition is
    disabled makes no call to the timer service and leaves a registered
    timeout in place. *)
Theorem at_most_one_timeout_registered :
  forall (env : Env) (ops : list op),
    let w := run env ops init_world in
    peak w <= 1 /\
    List.length (sources w) <= 1 /\
    (forall id : nat, In id (sources w) -> timeout_id (self w) = Some id) /\
    (sources w <> [] -> dstat_remote (self w) <> None) /\
    forall ctx : Context,
      let w' := snd (on_step_run env ctx w) in
      peak w' <= 1 /\
      (dropbot_dx_remote (self w) = None \/
       dstat_enabled (step_options ctx) = false ->
       filter is_timer_call (since w w') = [] /\
       sources w' = sources w /\
       timeout_id (self w') = timeout_id (self w)) /\
      (forall interval id : nat,
          In (TimeoutAdd interval id) (since w w') ->
          sources w' = [id] /\
          forall old : nat,
            In old (sources w) -> In (SourceRemove old) (since w w')).
Proof.
  intros env ops. cbv zeta.
  pose proof (one_timer_run env ops init_world one_timer_init) as Hinv.
  pose proof Hinv as (Hin & Hlen & Hpeak & Hsess).
  split; [exact Hpeak|]. split; [exact Hlen|]. split; [exact Hin|].
  split; [exact Hsess|]. intros ctx.
  repeat split.
  - now apply one_timer_on_step_run.
  - apply (on_step_run_timer_branches env ctx _ Hinv); auto.
  - apply (on_step_run_timer_branches env ctx _ Hinv); auto.
  - apply (on_step_run_timer_branches env ctx _ Hinv); auto.
  - apply (on_step_run_timer_branches env ctx _ Hinv) with interval; auto.
  - destruct (on_step_run_timer_branches env ctx _ Hinv) as (_ & Hadd).
    destruct (Hadd interval id) as (_ & Hold); auto.
Qed.

Lemma at_most_one_timeout_registered_witness :
  filter is_timer_call
    (since world_polling (snd (on_step_run env_ok ctx_plain world_polling)))
  = [] /\
  sources (snd (on_step_run env_ok ctx_plain world_polling))
  = sources world_polling.
Proof.
  destruct (at_most_one_timeout_registered env_ok
              [OpEnable 10; OpStepRun ctx_dstat])
    as (_ & _ & _ & _ & Hstep).
  destruct (Hstep ctx_plain) as (_ & Hkeep & _).
  destruct Hkeep as (Hcalls & Hsrc & _).
  - right. reflexivity.
  - split; [exact Hcalls | exact Hsrc].
Defined.

(** C2 fails as stated: while the timeout of a first step is registered,
    a step without acquisition, and a step that finds no board, call
    neither [source_remove] nor [timeout_add]; the old timeout stays
    registered, and when it fires it emits an outcome during the later
    step. *)
Lemma on_step_run_leaves_previous_timer :
  let w1 := snd (on_step_run env_ok ctx_plain world_polling) in
  let w2 := snd (on_step_run env_ok ctx_dstat world_polling_no_board) in
  sources world_polling = [1] /\
  timeout_id (self world_polling) = Some 1 /\
  existsb is_timer_call (since world_polling w1) = false /\
  completions (since world_polling w1) = [OutNone] /\
  sources w1 = [1] /\
  completions (since w1 (dispatch_timeout env_ok 1 w1)) = [OutNone] /\
  sources world_polling_no_board = [1] /\
  dropbot_dx_remote (self world_polling_no_board) = None /\
  existsb is_timer_call (since world_polling_no_board w2) = false /\
  completions (since world_polling_no_board w2) = [OutNone] /\
  sources w2 = [1].
Proof. vm_compute. repeat split. Qed.

(** ** Further properties of a step *)

(** X1: without a board [on_step_run] returns after logging the step and
    emitting [None]; it makes no other call and leaves the plugin and the
    timeouts as they were. *)
Theorem on_step_run_without_board :
  forall (env : Env) (ctx : Context) (w : World),
    dropbot_dx_remote (self w) = None ->
    let r := on_step_run env ctx w in
    fst r = Ret tt /\
    since w (snd r) = [LoggerInfo step_info; EmitStepComplete OutNone] /\
    self (snd r) = self w /\
    sources (snd r) = sources w.
Proof.
  intros env ctx w Hb. cbv zeta. destruct_world w. subst.
  unfold_monad. simpl_since. repeat split.
Qed.

Lemma on_step_run_without_board_witness :
  since init_world (snd (on_step_run env_ok ctx_dstat init_world)) =
    [LoggerInfo step_info; EmitStepComplete OutNone].
Proof.
  apply (on_step_run_without_board env_ok ctx_dstat init_world).
  reflexivity.
Defined.

(** X2: [on_step_run] raises only when a board is attached and
    [update_state] raises, and then with that exception; in that case no
    outcome is emitted, no session or timer call is made and the plugin is
    unchanged.  Every other failure is turned into an outcome. *)
Theorem on_step_run_raises_with_update_state :
  forall (env : Env) (ctx : Context) (w : World),
    let r := on_step_run env ctx w in
    fst r =
      match dropbot_dx_remote (self w), env_update_state env (S (clock w))
      with
      | Some _, Raise e => Raise e
      | _, _ => Ret tt
      end /\
    (forall e : exn,
        fst r = Raise e ->
        completions (since w (snd r)) = [] /\
        filter is_session_call (since w (snd r)) = [] /\
        filter is_timer_call (since w (snd r)) = [] /\
        self (snd r) = self w /\
        sources (snd r) = sources w).
Proof.
  intros env ctx w. cbv zeta. destruct_world w.
  run_cases; simpl_since;
    (split; [reflexivity|]); intros e0 He; try discriminate;
    repeat split.
Qed.

Lemma on_step_run_raises_with_update_state_witness :
  fst (on_step_run env_update_raises ctx_dstat world_connected)
  = Raise OtherError /\
  completions
    (since world_connected
           (snd (on_step_run env_update_raises ctx_dstat world_connected)))
  = [].
Proof.
  destruct (on_step_run_raises_with_update_state env_update_raises ctx_dstat
              world_connected) as (Hr & Hsilent).
  split; [exact Hr|].
  apply (Hsilent OtherError). exact Hr.
Defined.

(** X4: with a board attached, [dstat_enabled], a ['dstat_uri'] and a
    D-Stat remote that is created and starts, [on_step_run] returns with
    the session stored, one timeout of 100 ms registered after the removal
    of the one [timeout_id] named, and its id stored in [timeout_id]; the
    only outcome emitted so far is the ['Fail'] of a board that answered
    false. *)
Theorem on_step_run_starts_polling :
  forall (env : Env) (ctx : Context) (w : World) (b : nat) (ok : bool)
         (uri : string),
    dropbot_dx_remote (self w) = Some b ->
    dstat_enabled (step_options ctx) = true ->
    env_update_state env (S (clock w)) = Ret ok ->
    dict_get "dstat_uri" (app_values ctx) = Ret uri ->
    let t := session_clock ok w in
    env_DstatRemote env t = Ret tt ->
    env_start_acquisition env (S t) = Ret tt ->
    let r := on_step_run env ctx w in
    let w' := snd r in
    fst r = Ret tt /\
    dstat_remote (self w') = Some t /\
    timeout_id (self w') = Some (next_source w) /\
    sources w' =
      match timeout_id (self w) with
      | Some old => remove_source old (sources w)
      | None => sources w
      end ++ [next_source w] /\
    filter is_session_call (since w w') =
      [NewDstatRemote uri; StartAcquisition t] /\
    filter is_timeout_add (since w w') = [TimeoutAdd 100 (next_source w)] /\
    clock w' = S (S (S t)) /\
    completions (since w w') = if ok then [] else [Fail].
Proof.
  intros env ctx w b ok uri Hb Hd Hupd Huri. cbv zeta.
  unfold session_clock. destruct_world w. subst. intros Hnew Hstart.
  unfold_monad. rewrite Hupd. unfold_monad. rewrite Hd, Huri.
  destruct ok, tid as [old|]; unfold_monad; rewrite Hnew; unfold_monad;
    rewrite Hstart; simpl_since; repeat split.
Qed.

Lemma on_step_run_starts_polling_witness :
  sources (snd (on_step_run env_ok ctx_dstat world_connected)) = [] ++ [1] /\
  dstat_remote (self (snd (on_step_run env_ok ctx_dstat world_connected)))
  = Some 17.
Proof.
  pose proof (on_step_run_starts_polling env_ok ctx_dstat world_connected
                0 true default_uri eq_refl eq_refl eq_refl eq_refl
                eq_refl eq_refl) as H.
  split; apply H.
Defined.

(** ** Further properties of the poll tick *)

(** X5: a poll tick whose session reports the acquisition still running
    prints the waiting message and returns [True]; the plugin and the
    timeouts are unchanged, no outcome is emitted and no board call made,
    so the session is polled again at the next tick, two clock ticks
    later. *)
Theorem remote_check_tick_waiting :
  forall (env : Env) (w : World) (s : nat),
    dstat_remote (self w) = Some s ->
    env_acquisition_complete env (clock w) = Ret false ->
    let r := remote_check_tick env w in
    let w' := snd r in
    fst r = Ret true /\
    since w w' = [AcquisitionComplete s; Print waiting_message] /\
    self w' = self w /\
    sources w' = sources w /\
    clock w' = S (S (clock w)) /\
    (forall id : nat, dispatch_timeout env id w = w' \/
                      dispatch_timeout env id w = w).
Proof.
  intros env w s Hs Hwait. cbv zeta.
  assert (Htick : remote_check_tick env w =
                  (Ret true,
                   mkWorld (self w) (S (S (clock w))) (sources w)
                           (next_source w) (peak w)
                           (log w ++ [AcquisitionComplete s;
                                      Print waiting_message]))).
  { destruct_world w. subst. unfold_monad. rewrite Hwait.
    unfold_monad. rewrite <- app_assoc. reflexivity. }
  rewrite Htick. simpl. repeat split.
  - apply since_app. reflexivity.
  - intros id. unfold dispatch_timeout. rewrite Htick.
    destruct (existsb (Nat.eqb id) (sources w)); auto.
Qed.

Lemma remote_check_tick_waiting_witness :
  fst (remote_check_tick env_slow world_polling) = Ret true /\
  self (snd (remote_check_tick env_slow world_polling)) = self world_polling.
Proof.
  pose proof (remote_check_tick_waiting env_slow world_polling 17
                eq_refl eq_refl) as H.
  split; apply H.
Defined.

(** X6: a poll tick emits an outcome exactly when it stops the polling:
    either it returns [False], having emitted one outcome and cleared the
    session reference and the timer handle, or it returns [True], having
    emitted nothing, called no board and left the plugin unchanged. *)
Theorem remote_check_tick_emits_iff_stops :
  forall (env : Env) (w : World),
    let r := remote_check_tick env w in
    let w' := snd r in
    (fst r = Ret false /\
     List.length (completions (since w w')) = 1 /\
     dstat_remote (self w') = None /\
     timeout_id (self w') = None) \/
    (fst r = Ret true /\
     completions (since w w') = [] /\
     filter is_board_call (since w w') = [] /\
     self w' = self w).
Proof.
  intros env w. cbv zeta. destruct_world w.
  run_cases; simpl_since; rewrite ?skipn_all; simpl;
    first [left; repeat split; reflexivity
          |right; repeat split; reflexivity].
Qed.

(** X7: when the acquisition is complete but the plugin holds no board
    any more, the tick still calls [reset()] once, makes no board call,
    emits ['Fail'] and stops the polling, whatever [reset()] answers. *)
Theorem remote_check_tick_completion_without_board :
  forall (env : Env) (w : World) (s : nat),
    dstat_remote (self w) = Some s ->
    dropbot_dx_remote (self w) = None ->
    env_acquisition_complete env (clock w) = Ret true ->
    let r := remote_check_tick env w in
    let w' := snd r in
    fst r = Ret false /\
    filter is_session_call (since w w') = [AcquisitionComplete s; Reset s] /\
    filter is_board_call (since w w') = [] /\
    completions (since w w') = [Fail].
Proof.
  intros env w s Hs Hb Hdone. cbv zeta. destruct_world w. subst.
  unfold_monad. rewrite Hdone. run_cases; simpl_since; repeat split.
Qed.

Lemma remote_check_tick_completion_without_board_witness :
  completions
    (since world_polling_no_board
           (snd (remote_check_tick env_ok world_polling_no_board)))
  = [Fail].
Proof.
  apply (remote_check_tick_completion_without_board env_ok
           world_polling_no_board 17); reflexivity.
Defined.

(** ** The poll loop *)

Lemma extends_refl (w : World) : extends w w.
Proof. unfold extends. now rewrite since_refl, app_nil_r. Qed.

Lemma extends_trans (w w1 w2 : World) :
  extends w w1 -> extends w1 w2 ->
  extends w w2 /\ since w w2 = since w w1 ++ since w1 w2.
Proof.
  unfold extends. intros H1 H2.
  assert (H : log w2 = log w ++ since w w1 ++ since w1 w2).
  { rewrite H2, H1 at 1. now rewrite app_assoc. }
  rewrite (since_app w w2 _ H). auto.
Qed.

Lemma completions_app (l1 l2 : list event) :
  completions (l1 ++ l2) = completions l1 ++ completions l2.
Proof. unfold completions. apply flat_map_app. Qed.

Lemma run_app (env : Env) (ops1 ops2 : list op) (w : World) :
  run env (ops1 ++ ops2) w = run env ops2 (run env ops1 w).
Proof. unfold run. apply fold_left_app. Qed.

Lemma dispatch_timeout_idle (env : Env) (id : nat) (w : World) :
  sources w = [] -> dispatch_timeout env id w = w.
Proof. intros H. unfold dispatch_timeout. now rewrite H. Qed.

Lemma run_timeouts_idle (env : Env) (ids : list nat) (w : World) :
  sources w = [] -> run env (map OpTimeout ids) w = w.
Proof.
  intros H. induction ids as [|id ids IH]; simpl; auto.
  now rewrite dispatch_timeout_idle.
Qed.

(** Closes a goal on a computed world: its log extends the old one, and
    the facts on the new events hold by computation. *)
Ltac solve_extends :=
  unfold extends; simpl_since; rewrite ?skipn_all, ?app_nil_r;
  rewrite ?remove_source_single; repeat split;
  first [reflexivity | congruence | lia].

(** A timeout that fires either emits nothing, or emits one outcome and
    leaves no timeout registered. *)
Lemma dispatch_timeout_outcome (env : Env) (id : nat) (w : World) :
  one_timer w ->
  extends w (dispatch_timeout env id w) /\
  (completions (since w (dispatch_timeout env id w)) = [] \/
   (List.length (completions (since w (dispatch_timeout env id w))) = 1 /\
    sources (dispatch_timeout env id w) = [])).
Proof.
  intros Hinv. pose proof (one_timer_sources w Hinv) as Hs. clear Hinv.
  unfold dispatch_timeout.
  destruct (existsb (Nat.eqb id) (sources w)) eqn:Hin.
  - apply in_sources_existsb in Hin.
    destruct Hs as [Hs | (id' & Hs & Ht & Hd)].
    + rewrite Hs in Hin. destruct Hin.
    + rewrite Hs in Hin. destruct Hin as [Hid | []]. subst id'.
      destruct_world w. subst. unfold drop_source.
      run_cases; try congruence;
        rewrite ?remove_source_single; unfold extends; simpl_since;
        rewrite ?skipn_all, ?app_nil_r;
        (split; [reflexivity|]);
        first [left; reflexivity | right; split; reflexivity].
  - split; [apply extends_refl|]. left. now rewrite since_refl.
Qed.

Lemma timeouts_emit_at_most_once (env : Env) (ids : list nat) :
  forall w : World,
    one_timer w ->
    extends w (run env (map OpTimeout ids) w) /\
    List.length (completions (since w (run env (map OpTimeout ids) w))) <= 1.
Proof.
  induction ids as [|id ids IH]; intros w Hinv; simpl.
  - split; [apply extends_refl|]. rewrite since_refl. simpl. lia.
  - destruct (dispatch_timeout_outcome env id w Hinv) as (Hext & Hout).
    pose proof (one_timer_dispatch_timeout env id w Hinv) as Hinv1.
    destruct (IH _ Hinv1) as (Hext' & Hlen).
    destruct (extends_trans _ _ _ Hext Hext') as (Hext2 & Hsince).
    split; [exact Hext2|].
    rewrite Hsince, completions_app, length_app.
    destruct Hout as [Hnone | (Hone & Hsrc)].
    + rewrite Hnone. simpl. exact Hlen.
    + rewrite (run_timeouts_idle env ids _ Hsrc), since_refl, Hone.
      simpl. lia.
Qed.

(** X8: however often and with whatever ids timeouts fire, and whatever
    the D-Stat remote and the board answer, the poll loop emits at most
    one outcome: the tick that emits also ends the polling. *)
Theorem poll_loop_emits_at_most_once :
  forall (env : Env) (ops : list op) (ids : list nat),
    let w := run env ops init_world in
    let w' := run env (map OpTimeout ids) w in
    List.length (completions (since w w')) <= 1.
Proof.
  intros env ops ids. cbv zeta.
  apply timeouts_emit_at_most_once.
  apply one_timer_run. apply one_timer_init.
Qed.

(** The world after a tick that found the acquisition still running. *)
Lemma remote_check_tick_waiting_world (env : Env) (w : World) (s : nat) :
  dstat_remote (self w) = Some s ->
  env_acquisition_complete env (clock w) = Ret false ->
  remote_check_tick env w =
    (Ret true,
     mkWorld (self w) (S (S (clock w))) (sources w) (next_source w) (peak w)
             (log w ++ [AcquisitionComplete s; Print waiting_message])).
Proof.
  intros Hs Hwait. destruct_world w. subst. unfold_monad. rewrite Hwait.
  unfold_monad. rewrite <- app_assoc. reflexivity.
Qed.

(** [k] polls that find the acquisition running change nothing but the
    clock and the log. *)
Lemma run_waiting (env : Env) (id s k : nat) :
  forall w : World,
    dstat_remote (self w) = Some s ->
    sources w = [id] ->
    (forall i : nat,
        i < k -> env_acquisition_complete env (clock w + 2 * i) = Ret false) ->
    let w' := run env (List.repeat (OpTimeout id) k) w in
    self w' = self w /\
    sources w' = [id] /\
    clock w' = clock w + 2 * k /\
    extends w w' /\
    completions (since w w') = [].
Proof.
  induction k as [|k IH]; intros w Hs Hsrc Hwait; cbv zeta.
  - simpl. repeat split; auto; try lia.
    + apply extends_refl.
    + now rewrite since_refl.
  - assert (H0 : env_acquisition_complete env (clock w) = Ret false).
    { specialize (Hwait 0 ltac:(lia)).
      now replace (clock w + 2 * 0) with (clock w) in Hwait by lia. }
    pose proof (remote_check_tick_waiting_world env w s Hs H0) as Htick.
    simpl. unfold dispatch_timeout. rewrite Hsrc. simpl.
    rewrite Nat.eqb_refl. simpl. rewrite Htick.
    match goal with
    | |- context [run env _ ?w1] => set (w1' := w1)
    end.
    assert (Hext1 : extends w w1' /\
                    since w w1' =
                      [AcquisitionComplete s; Print waiting_message]).
    { unfold extends. rewrite (since_app w w1' _ eq_refl). auto. }
    destruct Hext1 as (Hext1 & Hsince1).
    destruct (IH w1') as (Hself & Hsrc' & Hclock & Hext & Hnone).
    + exact Hs.
    + exact Hsrc.
    + intros i Hi. change (clock w1') with (S (S (clock w))).
      replace (S (S (clock w)) + 2 * i) with (clock w + 2 * S i) by lia.
      apply Hwait. lia.
    + destruct (extends_trans _ _ _ Hext1 Hext) as (Hext2 & Hsince).
      repeat split; auto.
      * rewrite Hclock. change (clock w1') with (S (S (clock w))). lia.
      * rewrite Hsince, completions_app, Hnone, Hsince1. reflexivity.
Qed.

(** The poll that finds the acquisition complete, or fails, is the last. *)
Lemma dispatch_timeout_terminal (env : Env) (id s : nat) (w : World) :
  dstat_remote (self w) = Some s ->
  sources w = [id] ->
  env_acquisition_complete env (clock w) <> Ret false ->
  let w' := dispatch_timeout env id w in
  extends w w' /\
  List.length (completions (since w w')) = 1 /\
  sources w' = [] /\
  dstat_remote (self w') = None /\
  timeout_id (self w') = None.
Proof.
  intros Hs Hsrc Hterm. cbv zeta. destruct_world w. subst.
  unfold dispatch_timeout, drop_source. simpl. rewrite Nat.eqb_refl. simpl.
  run_cases; try congruence;
    rewrite ?remove_source_single; unfold extends; simpl_since;
    repeat split; reflexivity.
Qed.

(** A poll loop whose first [k] polls find the acquisition running and
    whose next poll does not. *)
Lemma poll_loop_run (env : Env) (id s k : nat) (w : World) :
  dstat_remote (self w) = Some s ->
  sources w = [id] ->
  (forall i : nat,
      i < k -> env_acquisition_complete env (clock w + 2 * i) = Ret false) ->
  env_acquisition_complete env (clock w + 2 * k) <> Ret false ->
  let w' := run env (List.repeat (OpTimeout id) (S k)) w in
  extends w w' /\
  List.length (completions (since w w')) = 1 /\
  sources w' = [] /\
  dstat_remote (self w') = None /\
  timeout_id (self w') = None.
Proof.
  intros Hs Hsrc Hwait Hterm. cbv zeta.
  change (List.repeat (OpTimeout id) (S k))
    with (OpTimeout id :: List.repeat (OpTimeout id) k).
  rewrite repeat_cons, run_app.
  destruct (run_waiting env id s k w Hs Hsrc Hwait)
    as (Hself & Hsrc' & Hclock & Hext & Hnone).
  set (wk := run env (List.repeat (OpTimeout id) k) w) in *.
  simpl.
  destruct (dispatch_timeout_terminal env id s wk)
    as (Hext' & Hone & Hsrc'' & Hd & Ht); auto.
  - now rewrite Hself.
  - now rewrite Hclock.
  - destruct (extends_trans _ _ _ Hext Hext') as (Hext2 & Hsince).
    repeat split; auto.
    now rewrite Hsince, completions_app, Hnone.
Qed.

(** X9: a poll loop completes: when the registered timeout fires while a
    session is held, the first [k] polls find the acquisition running and
    the next one finds it complete or fails, exactly one outcome is emitted
    over the [k+1] ticks, after which no timeout is registered, the
    session reference and the timer handle are cleared, and further
    firings do nothing. *)
Theorem poll_loop_completes :
  forall (env : Env) (w : World) (id s k : nat),
    dstat_remote (self w) = Some s ->
    sources w = [id] ->
    (forall i : nat,
        i < k -> env_acquisition_complete env (clock w + 2 * i) = Ret false) ->
    env_acquisition_complete env (clock w + 2 * k) <> Ret false ->
    let w' := run env (List.repeat (OpTimeout id) (S k)) w in
    List.length (completions (since w w')) = 1 /\
    sources w' = [] /\
    dstat_remote (self w') = None /\
    timeout_id (self w') = None /\
    (forall ids : list nat, run env (map OpTimeout ids) w' = w').
Proof.
  intros env w id s k Hs Hsrc Hwait Hterm. cbv zeta.
  destruct (poll_loop_run env id s k w Hs Hsrc Hwait Hterm)
    as (_ & Hone & Hsrc' & Hd & Ht).
  repeat split; auto.
  intros ids. now apply run_timeouts_idle.
Qed.

Lemma poll_loop_completes_witness :
  List.length
    (completions
       (since world_polling
              (run env_slow (List.repeat (OpTimeout 1) 3) world_polling)))
  = 1.
Proof.
  apply (poll_loop_completes env_slow world_polling 1 17 2).
  - reflexivity.
  - reflexivity.
  - intros i Hi. destruct i as [|[|i]]; [reflexivity | reflexivity | lia].
  - vm_compute. discriminate.
Defined.

(** ** A whole step *)

(** The world in which [on_step_run] leaves a started acquisition. *)
Lemma on_step_run_started (env : Env) (ctx : Context) (w : World)
      (b : nat) (uri : string) :
  one_timer w ->
  dropbot_dx_remote (self w) = Some b ->
  dstat_enabled (step_options ctx) = true ->
  env_update_state env (S (clock w)) = Ret true ->
  dict_get "dstat_uri" (app_values ctx) = Ret uri ->
  env_DstatRemote env (session_clock true w) = Ret tt ->
  env_start_acquisition env (S (session_clock true w)) = Ret tt ->
  let w1 := snd (on_step_run env ctx w) in
  extends w w1 /\
  completions (since w w1) = [] /\
  dstat_remote (self w1) = Some (session_clock true w) /\
  sources w1 = [next_source w] /\
  clock w1 = S (S (S (session_clock true w))).
Proof.
  intros Hinv Hb Hd Hupd Huri. cbv zeta.
  pose proof (one_timer_sources w Hinv) as Hs. clear Hinv.
  unfold session_clock. destruct_world w.
  destruct Hs as [Hs | (id0 & Hs & Ht & _)]; subst; intros Hnew Hstart;
    unfold_monad; rewrite Hupd; unfold_monad; rewrite Hd, Huri;
    [destruct tid as [old|]|]; unfold_monad; rewrite Hnew; unfold_monad;
    rewrite Hstart; rewrite ?remove_source_single;
    unfold extends; simpl_since; repeat split.
Qed.

(** X10: a step with acquisition, run to its end without being
    superseded, emits exactly one outcome: from any world the host can
    reach, with a board that accepts the state and a D-Stat remote that
    starts, [on_step_run] followed by [k] polls that find the acquisition
    running and one that does not emits one outcome in all, and leaves no
    timeout registered, no session and no timer handle. *)
Theorem step_with_acquisition_emits_once :
  forall (env : Env) (ops : list op) (ctx : Context) (b : nat)
         (uri : string) (k : nat),
    let w := run env ops init_world in
    dropbot_dx_remote (self w) = Some b ->
    dstat_enabled (step_options ctx) = true ->
    env_update_state env (S (clock w)) = Ret true ->
    dict_get "dstat_uri" (app_values ctx) = Ret uri ->
    let t := session_clock true w in
    env_DstatRemote env t = Ret tt ->
    env_start_acquisition env (S t) = Ret tt ->
    (forall i : nat,
        i < k ->
        env_acquisition_complete env (S (S (S t)) + 2 * i) = Ret false) ->
    env_acquisition_complete env (S (S (S t)) + 2 * k) <> Ret false ->
    let w' :=
      run env (OpStepRun ctx :: List.repeat (OpTimeout (next_source w)) (S k))
          w in
    List.length (completions (since w w')) = 1 /\
    sources w' = [] /\
    dstat_remote (self w') = None /\
    timeout_id (self w') = None.
Proof.
  intros env ops ctx b uri k. cbv zeta.
  set (w := run env ops init_world).
  intros Hb Hd Hupd Huri Hnew Hstart Hwait Hterm.
  assert (Hinv : one_timer w)
    by (apply one_timer_run; apply one_timer_init).
  destruct (on_step_run_started env ctx w b uri Hinv Hb Hd Hupd Huri
              Hnew Hstart) as (Hext & Hnone & Hs & Hsrc & Hclock).
  change (run env (OpStepRun ctx
                     :: List.repeat (OpTimeout (next_source w)) (S k)) w)
    with (run env (List.repeat (OpTimeout (next_source w)) (S k))
              (snd (on_step_run env ctx w))).
  set (w1 := snd (on_step_run env ctx w)) in *.
  destruct (poll_loop_run env (next_source w) (session_clock true w) k w1)
    as (Hext' & Hone & Hsrc' & Hd' & Ht'); auto.
  - intros i Hi. rewrite Hclock. now apply Hwait.
  - rewrite Hclock. exact Hterm.
  - destruct (extends_trans _ _ _ Hext Hext') as (_ & Hsince).
    repeat split; auto.
    now rewrite Hsince, completions_app, Hnone.
Qed.

Lemma step_with_acquisition_emits_once_witness :
  let w := run env_slow [OpEnable 10] init_world in
  List.length
    (completions
       (since w (run env_slow
                     (OpStepRun ctx_dstat :: List.repeat (OpTimeout 1) 3) w)))
  = 1.
Proof.
  apply (step_with_acquisition_emits_once env_slow [OpEnable 10] ctx_dstat
           0 default_uri 2); try reflexivity.
  - intros i Hi. destruct i as [|[|i]]; [reflexivity | reflexivity | lia].
  - vm_compute. discriminate.
Defined.

(** ** What the calls leave alone *)

(** X11: enabling or disabling the plugin, or starting a protocol, while
    an acquisition is polled neither removes the timeout nor clears the
    session reference or the timer handle: the poll loop goes on. *)
Theorem lifecycle_calls_keep_poll_loop :
  forall (env : Env) (w : World) (o : op),
    is_step_op o = false ->
    sources (step env w o) = sources w /\
    timeout_id (self (step env w o)) = timeout_id (self w) /\
    dstat_remote (self (step env w o)) = dstat_remote (self w).
Proof.
  intros env w o Ho.
  destruct o as [depth| | |ctx|id]; simpl in Ho; try discriminate; simpl.
  - destruct (keeps_on_plugin_enable env depth w) as (H1 & _ & H3 & H4).
    auto.
  - destruct (keeps_on_plugin_disable env w) as (H1 & _ & H3 & H4). auto.
  - destruct (keeps_on_protocol_run w) as (H1 & _ & H3 & H4). auto.
Qed.

Lemma lifecycle_calls_keep_poll_loop_witness :
  sources (step env_ok world_polling OpDisable) = sources world_polling /\
  timeout_id (self (step env_ok world_polling OpDisable))
  = timeout_id (self world_polling) /\
  dstat_remote (self (step env_ok world_polling OpDisable))
  = dstat_remote (self world_polling).
Proof.
  apply (lifecycle_calls_keep_poll_loop env_ok world_polling OpDisable).
  reflexivity.
Defined.

Lemma on_step_run_keeps_board (env : Env) (ctx : Context) (w : World) :
  dropbot_dx_remote (self (snd (on_step_run env ctx w)))
  = dropbot_dx_remote (self w) /\
  initialized (self (snd (on_step_run env ctx w))) = initialized (self w).
Proof. destruct_world w. run_cases; split; reflexivity. Qed.

Lemma dispatch_timeout_keeps_board (env : Env) (id : nat) (w : World) :
  dropbot_dx_remote (self (dispatch_timeout env id w))
  = dropbot_dx_remote (self w) /\
  initialized (self (dispatch_timeout env id w)) = initialized (self w).
Proof.
  unfold dispatch_timeout, drop_source.
  destruct (existsb (Nat.eqb id) (sources w)); [|auto].
  destruct_world w. run_cases; split; reflexivity.
Qed.

(** X12: steps and poll ticks never attach or drop a board: along any
    sequence of [on_step_run] calls and timeouts, whatever fails, the
    board handle (and so the answer of [connected()]) stays what it
    was. *)
Theorem steps_keep_board_handle :
  forall (env : Env) (ops : list op) (w : World),
    forallb is_step_op ops = true ->
    dropbot_dx_remote (self (run env ops w)) = dropbot_dx_remote (self w) /\
    initialized (self (run env ops w)) = initialized (self w).
Proof.
  intros env ops. induction ops as [|o ops IH]; intros w Hops; simpl; auto.
  simpl in Hops. apply andb_true_iff in Hops. destruct Hops as (Ho & Hops).
  destruct (IH (step env w o) Hops) as (Hb & Hi). rewrite Hb, Hi.
  destruct o as [depth| | |ctx|id]; simpl in Ho; try discriminate; simpl.
  - apply on_step_run_keeps_board.
  - apply dispatch_timeout_keeps_board.
Qed.

Lemma steps_keep_board_handle_witness :
  dropbot_dx_remote
    (self (run env_poll_raises [OpStepRun ctx_dstat; OpTimeout 1]
               world_connected))
  = dropbot_dx_remote (self world_connected).
Proof.
  apply (steps_keep_board_handle env_poll_raises
           [OpStepRun ctx_dstat; OpTimeout 1] world_connected).
  reflexivity.
Defined.

(** ** Connecting and flashing *)

Lemma logs_ret {A} (P : event -> bool) (a : A) : logs_only P (ret a).
Proof. intros w. exists []. simpl. now rewrite app_nil_r. Qed.

Lemma logs_raise {A} (P : event -> bool) (e : exn) :
  logs_only P (@raise A e).
Proof. intros w. exists []. simpl. now rewrite app_nil_r. Qed.

Lemma logs_lift {A} (P : event -> bool) (r : result A) :
  logs_only P (lift r).
Proof. intros w. exists []. simpl. now rewrite app_nil_r. Qed.

Lemma logs_get_self (P : event -> bool) : logs_only P get_self.
Proof. intros w. exists []. simpl. now rewrite app_nil_r. Qed.

Lemma logs_fresh_handle (P : event -> bool) : logs_only P fresh_handle.
Proof. intros w. exists []. simpl. now rewrite app_nil_r. Qed.

Lemma logs_set_dropbot_dx_remote (P : event -> bool) (v : option nat) :
  logs_only P (set_dropbot_dx_remote v).
Proof. intros w. exists []. simpl. now rewrite app_nil_r. Qed.

Lemma logs_emit (P : event -> bool) (ev : event) :
  P ev = true -> logs_only P (emit ev).
Proof. intros H w. exists [ev]. simpl. now rewrite H. Qed.

Lemma logs_call {A} (P : event -> bool) (ev : event)
      (answer : nat -> result A) :
  P ev = true -> logs_only P (call ev answer).
Proof. intros H w. exists [ev]. simpl. now rewrite H. Qed.

Lemma logs_bind {A B} (P : event -> bool) (m : M A) (k : A -> M B) :
  logs_only P m -> (forall a : A, logs_only P (k a)) ->
  logs_only P (bind m k).
Proof.
  intros Hm Hk w. unfold bind.
  destruct (Hm w) as (l & Hl & HP).
  destruct (m w) as [[a|e] w1]; simpl in *.
  - destruct (Hk a w1) as (l' & Hl' & HP').
    exists (l ++ l'). rewrite Hl', Hl, app_assoc, forallb_app, HP, HP'.
    auto.
  - exists l. auto.
Qed.

Lemma logs_when (P : event -> bool) (b : bool) (m : M unit) :
  logs_only P m -> logs_only P (when b m).
Proof. intros Hm. destruct b; simpl; auto. apply logs_ret. Qed.

Lemma logs_try_except_IOError {A} (P : event -> bool) (body handler : M A) :
  logs_only P body -> logs_only P handler ->
  logs_only P (try_except_IOError body handler).
Proof.
  intros Hb Hh w. unfold try_except_IOError.
  destruct (Hb w) as (l & Hl & HP).
  destruct (body w) as [[a|e] w1]; simpl in *.
  - exists l. auto.
  - destruct (is_IOError e).
    + destruct (Hh w1) as (l' & Hl' & HP').
      exists (l ++ l'). rewrite Hl', Hl, app_assoc, forallb_app, HP, HP'.
      auto.
    + exists l. auto.
Qed.

Lemma logs_the_board (P : event -> bool) : logs_only P the_board.
Proof.
  intros w. exists []. unfold the_board, bind, get_self.
  destruct (dropbot_dx_remote (self w)); simpl; now rewrite app_nil_r.
Qed.

Create HintDb logs.

#[local] Hint Resolve logs_ret logs_raise logs_lift logs_get_self
  logs_fresh_handle logs_set_dropbot_dx_remote logs_bind logs_when
  logs_try_except_IOError logs_the_board : logs.

#[local] Hint Extern 1 (logs_only _ (emit _)) =>
  apply logs_emit; reflexivity : logs.

#[local] Hint Extern 1 (logs_only _ (call _ _)) =>
  apply logs_call; reflexivity : logs.

Lemma logs_on_flash_firmware_with (env : Env) (reconnect : M unit) :
  logs_only is_connect_event reconnect ->
  logs_only is_connect_event (on_flash_firmware_with env reconnect).
Proof. intros H. unfold on_flash_firmware_with. auto 30 with logs. Qed.

Lemma logs_connect (env : Env) (depth : nat) :
  logs_only is_connect_event (connect env depth).
Proof.
  induction depth as [|d IH]; cbn [connect]; [auto with logs|].
  pose proof (logs_on_flash_firmware_with env _ IH) as Hflash.
  unfold update_state. auto 40 with logs.
Qed.

Lemma connect_events_are_quiet (l : list event) :
  forallb is_connect_event l = true ->
  completions l = [] /\
  filter is_session_call l = [] /\
  filter is_timer_call l = [].
Proof.
  induction l as [|e l IH]; simpl; auto.
  intros H. apply andb_true_iff in H. destruct H as (He & Hl).
  destruct (IH Hl) as (H1 & H2 & H3).
  destruct e; simpl in *; try discriminate; auto.
Qed.

(** X13: [connect], with the flashing and the reconnections it may go
    through, only opens proxies, reads their versions and port, asks the
    user, calls the firmware tools, logs, and sends
    [update_state(light_enabled=True)]: it never emits an outcome, never
    calls the D-Stat remote or the timer service, and sends the board no
    other state. *)
Theorem connect_makes_connection_calls_only :
  forall (env : Env) (depth : nat) (w : World),
    let w' := snd (connect env depth w) in
    extends w w' /\
    forallb is_connect_event (since w w') = true /\
    completions (since w w') = [] /\
    filter is_session_call (since w w') = [] /\
    filter is_timer_call (since w w') = [].
Proof.
  intros env depth w. cbv zeta.
  destruct (logs_connect env depth w) as (l & Hl & HP).
  pose proof (since_app _ _ _ Hl) as Hs.
  unfold extends. rewrite Hs.
  split; [exact Hl|]. split; [exact HP|].
  now apply connect_events_are_quiet.
Qed.

(** Runs the monad without touching the pair projections, for goals
    that are equations on a result and a world. *)
Ltac unfold_monad_eq :=
  cbv beta iota zeta delta
    [update_state the_board connected when try_except
     try_except_IOError emit_signal_on_step_complete print_exception
     set_timeout_id set_dstat_remote set_dropbot_dx_remote set_initialized
     gobject_source_remove gobject_timeout_add fresh_handle lift call
     emit set_self get_self bind ret raise
     self clock sources next_source peak log
     timeout_id dstat_remote dropbot_dx_remote initialized].

Ltac run_cases_eq :=
  unfold_monad_eq; repeat (destruct_scrutinee; unfold_monad_eq).

(** Where [on_flash_firmware] ends when it makes no upload. *)
Lemma on_flash_firmware_with_no_upload (env : Env) (reconnect : M unit)
      (w w' : World) (r : result unit) :
  logs_only is_connect_event reconnect ->
  on_flash_firmware_with env reconnect w = (r, w') ->
  filter is_upload (since w w') = [] ->
  self w' = self w /\ sources w' = sources w /\ exists e : exn, r = Raise e.
Proof.
  intros Hlogs Heq Hup. revert Heq Hup.
  unfold on_flash_firmware_with. destruct_world w.
  match goal with
  | |- _ = _ -> ?H -> ?G => set (noUpload := H); set (Q := G)
  end.
  run_cases_eq; intros Heq; subst noUpload Q;
    try (inversion Heq; subst; clear Heq; simpl_since; intros Hup;
         first [discriminate
               |split; [reflexivity|]; split; [reflexivity|];
                eexists; reflexivity]).
  match type of Heq with
  | reconnect ?W = _ =>
      destruct (Hlogs W) as (l & Hl & _); rewrite Heq in Hl; simpl in Hl
  end.
  unfold since. simpl. rewrite Hl. repeat rewrite <- app_assoc.
  rewrite skipn_exact. simpl. discriminate.
Qed.

(** X14: [on_flash_firmware] drops the board only to upload: when no
    firmware image is listed it raises [IndexError] after the one call to
    [get_firmwares], and whenever it ends without having called
    [upload_firmware] it has raised and the plugin, board handle included,
    is as it was. *)
Theorem on_flash_firmware_without_upload :
  forall (env : Env) (depth : nat) (w : World),
    let r := on_flash_firmware env depth w in
    (env_get_firmwares env (clock w) = Ret [] ->
     fst r = Raise IndexError /\ since w (snd r) = [GetFirmwares]) /\
    (filter is_upload (since w (snd r)) = [] ->
     self (snd r) = self w /\ exists e : exn, fst r = Raise e).
Proof.
  intros env depth w. cbv zeta. split.
  - intros Hfw. unfold on_flash_firmware, on_flash_firmware_with.
    destruct_world w. unfold_monad. rewrite Hfw. simpl. unfold_monad.
    simpl_since. split; reflexivity.
  - intros Hup. unfold on_flash_firmware in *.
    destruct (on_flash_firmware_with env (connect env depth) w)
      as [r w'] eqn:Heq.
    destruct (on_flash_firmware_with_no_upload env _ w w' r
                (logs_connect env depth) Heq Hup) as (Hself & _ & He).
    simpl. auto.
Qed.

Lemma on_flash_firmware_without_upload_witness :
  fst (on_flash_firmware env_no_firmware 5 world_connected)
  = Raise IndexError /\
  self (snd (on_flash_firmware env_no_firmware 5 world_connected))
  = self world_connected.
Proof.
  destruct (on_flash_firmware_without_upload env_no_firmware 5
              world_connected) as (Hempty & Hkeep).
  split.
  - apply Hempty. reflexivity.
  - apply Hkeep. reflexivity.
Defined.

(** X15: when the upload itself raises, [on_flash_firmware] raises that
    exception with the board already dropped: the handle is [None], no
    proxy is opened again, and [connected()] is false afterwards. *)
Theorem on_flash_firmware_upload_failure :
  forall (env : Env) (depth : nat) (w : World) (b : nat)
         (name path port : string) (paths paths' : list string)
         (others firmwares' : list (string * list string)) (e : exn),
    dropbot_dx_remote (self w) = Some b ->
    env_get_firmwares env (clock w) = Ret ((name, paths) :: others) ->
    env_get_firmwares env (S (clock w)) = Ret firmwares' ->
    dict_get name firmwares' = Ret (path :: paths') ->
    env_port env (S (S (clock w))) = Ret port ->
    env_upload_firmware env (S (S (S (clock w)))) = Raise e ->
    let r := on_flash_firmware env depth w in
    fst r = Raise e /\
    dropbot_dx_remote (self (snd r)) = None /\
    fst (connected (snd r)) = Ret false /\
    since w (snd r) =
      [GetFirmwares; GetFirmwares; SerialPort b;
       UploadFirmware path name port].
Proof.
  intros env depth w b name path port paths paths' others firmwares' e
         Hb Hfw Hfw' Hpath Hport Hup. cbv zeta.
  unfold on_flash_firmware, on_flash_firmware_with.
  destruct_world w. subst. unfold_monad. rewrite Hfw. simpl.
  unfold_monad. rewrite Hfw'. unfold_monad. rewrite Hpath. simpl.
  unfold_monad. rewrite Hport. unfold_monad. rewrite Hup.
  simpl_since. repeat split.
Qed.

Lemma on_flash_firmware_upload_failure_witness :
  let env := mkEnv (fun _ => Ret tt) (fun _ => Ret "1.1") (fun _ => Ret "1.0")
                   (fun _ => Ret "COM1") (fun _ => true)
                   (fun _ => Ret [("uno", ["dx.hex"])])
                   (fun _ => Raise OtherError)
                   (fun _ => Ret true) (fun _ => Ret tt) (fun _ => Ret tt)
                   (fun _ => Ret tt) (fun _ => Ret true) (fun _ => Ret tt) in
  fst (on_flash_firmware env 5 world_connected) = Raise OtherError /\
  dropbot_dx_remote (self (snd (on_flash_firmware env 5 world_connected)))
  = None.
Proof.
  cbv zeta.
  match goal with
  | |- fst (on_flash_firmware ?env _ _) = _ /\ _ =>
      pose proof (on_flash_firmware_upload_failure env 5 world_connected 0
                    "uno" "dx.hex" "COM1" ["dx.hex"] [] []
                    [("uno", ["dx.hex"])] OtherError
                    eq_refl eq_refl eq_refl eq_refl eq_refl eq_refl) as H
  end.
  split; apply H.
Defined.

(** X16: a failure after the proxy was opened leaves the plugin
    connected: when reading the firmware version raises [IOError],
    [connect()] logs the warning and returns, the new proxy stays in the
    board handle, [connected()] is true and the board was not sent the
    default state. *)
Theorem connect_IOError_after_open_stays_connected :
  forall (env : Env) (depth : nat) (w : World) (host : string),
    env_SerialProxy env (clock w) = Ret tt ->
    env_host_software_version env (S (clock w)) = Ret host ->
    env_remote_software_version env (S (S (clock w))) = Raise IOError ->
    let r := connect env (S depth) w in
    fst r = Ret tt /\
    dropbot_dx_remote (self (snd r)) = Some (clock w) /\
    fst (connected (snd r)) = Ret true /\
    since w (snd r) =
      [NewSerialProxy; HostSoftwareVersion (clock w);
       RemoteSoftwareVersion (clock w); LoggerWarning connect_warning].
Proof.
  intros env depth w host Hproxy Hhost Hremote. cbv zeta.
  cbn [connect]. destruct_world w. unfold_monad.
  rewrite Hproxy. unfold_monad. rewrite Hhost. unfold_monad.
  rewrite Hremote. unfold_monad. simpl_since. repeat split.
Qed.

Lemma connect_IOError_after_open_stays_connected_witness :
  let env := mkEnv (fun _ => Ret tt) (fun _ => Ret "1.0")
                   (fun _ => Raise IOError)
                   (fun _ => Ret "COM1") (fun _ => false)
                   (fun _ => Ret [("uno", ["dx.hex"])])
                   (fun _ => Ret "uploaded")
                   (fun _ => Ret true) (fun _ => Ret tt) (fun _ => Ret tt)
                   (fun _ => Ret tt) (fun _ => Ret true) (fun _ => Ret tt) in
  fst (connect env 10 init_world) = Ret tt /\
  fst (connected (snd (connect env 10 init_world))) = Ret true.
Proof.
  cbv zeta.
  match goal with
  | |- fst (connect ?env _ _) = _ /\ _ =>
      pose proof (connect_IOError_after_open_stays_connected env 9
                    init_world "1.0" eq_refl eq_refl eq_refl) as H
  end.
  split; apply H.
Defined.

(** X17: when the firmware was flashed and the port cannot be opened
    again, the inner [connect()] swallows the [IOError] and the outer one
    goes on to [self.dropbot_dx_remote.update_state] with no board:
    [connect()] raises [AttributeError], the plugin is left disconnected
    and the board was never sent the default state. *)
Theorem connect_reconnect_failure_raises_AttributeError :
  forall (env : Env) (depth : nat) (w : World)
         (host remote name path port out : string)
         (paths paths' : list string)
         (others firmwares' : list (string * list string)),
    let c := clock w in
    env_SerialProxy env c = Ret tt ->
    env_host_software_version env (1 + c) = Ret host ->
    env_remote_software_version env (2 + c) = Ret remote ->
    String.eqb remote host = false ->
    env_yesno env (3 + c) = true ->
    env_get_firmwares env (4 + c) = Ret ((name, paths) :: others) ->
    env_get_firmwares env (5 + c) = Ret firmwares' ->
    dict_get name firmwares' = Ret (path :: paths') ->
    env_port env (6 + c) = Ret port ->
    env_upload_firmware env (7 + c) = Ret out ->
    env_SerialProxy env (9 + c) = Raise IOError ->
    let r := connect env (S (S depth)) w in
    fst r = Raise AttributeError /\
    dropbot_dx_remote (self (snd r)) = None /\
    filter is_board_call (since w (snd r)) =
      [HostSoftwareVersion c; RemoteSoftwareVersion c; SerialPort c] /\
    filter is_upload (since w (snd r)) = [UploadFirmware path name port] /\
    In (LoggerWarning connect_warning) (since w (snd r)).
Proof.
  intros env depth w host remote name path port out paths paths' others
         firmwares'. cbv zeta. simpl plus.
  intros Hproxy Hhost Hremote Hdiff Hyes Hfw Hfw' Hpath Hport Hup Hlost.
  cbn [connect]. unfold on_flash_firmware_with. destruct_world w.
  unfold_monad. rewrite Hproxy. unfold_monad. rewrite Hhost. unfold_monad.
  rewrite Hremote. unfold_monad. rewrite Hdiff. unfold_monad.
  rewrite Hyes. unfold_monad. rewrite Hfw. simpl. unfold_monad.
  rewrite Hfw'. unfold_monad. rewrite Hpath. simpl. unfold_monad.
  rewrite Hport. unfold_monad. rewrite Hup. unfold_monad.
  rewrite Hlost. unfold_monad. simpl_since.
  repeat split; auto 20.
Qed.

Lemma connect_reconnect_failure_raises_AttributeError_witness :
  fst (connect env_lost_after_flash 10 world_polling)
  = Raise AttributeError /\
  dropbot_dx_remote (self (snd (connect env_lost_after_flash 10
                                        world_polling))) = None.
Proof.
  pose proof (connect_reconnect_failure_raises_AttributeError
                env_lost_after_flash 8 world_polling
                "1.1" "1.0" "uno" "dx.hex" "COM1" "uploaded"
                ["dx.hex"] [] [] [("uno", ["dx.hex"])]
                eq_refl eq_refl eq_refl eq_refl eq_refl eq_refl eq_refl
                eq_refl eq_refl eq_refl eq_refl) as (H1 & H2 & _).
  split; [exact H1 | exact H2].
Defined.

(** ** Enabling the plugin *)

(** X18: [on_plugin_enable] raises what [connect()] raises, before any
    menu call; otherwise it returns with [initialized] set, having built
    the menu only if [initialized] was not set, shown the tools menu item,
    and shown the configuration item only if a board is attached; the
    board handle is the one [connect()] left. *)
Theorem on_plugin_enable_builds_menu_once :
  forall (env : Env) (depth : nat) (w : World),
    let r1 := connect env depth w in
    let r := on_plugin_enable env depth w in
    match fst r1 with
    | Raise e => r = (Raise e, snd r1)
    | Ret _ =>
        fst r = Ret tt /\
        initialized (self (snd r)) = true /\
        dropbot_dx_remote (self (snd r)) = dropbot_dx_remote (self (snd r1)) /\
        flat_map gtk_call (since (snd r1) (snd r)) =
          (if initialized (self (snd r1)) then [] else menu_build)
          ++ ["tools_menu_item.show()"]
          ++ match dropbot_dx_remote (self (snd r1)) with
             | Some _ => ["edit_config_menu_item.show()"]
             | None => []
             end
          ++ ["super.on_plugin_enable()"] /\
        List.length (since (snd r1) (snd r)) =
          List.length (flat_map gtk_call (since (snd r1) (snd r)))
    end.
Proof.
  intros env depth w. cbv zeta. unfold on_plugin_enable.
  cbv beta delta [bind].
  destruct (connect env depth w) as [[[]|e] w1]; [|reflexivity].
  cbn [fst snd]. destruct_world w1.
  destruct ini, board as [b|]; unfold_monad; simpl_since;
    repeat split; reflexivity.
Qed.
